(** * generate-workflow.py: variant expansion and step assembly

    A shallow embedding of [generate-workflow.py], the generator of the 3C
    benchmark workflows and of the local benchmark-runner script, together
    with the properties of its subvariant naming, step sequencing, rendering
    and local-mode validation.

    Python [str] values are modelled as [string]; a character is a code
    point below 256.  The output stream ([TextIO]) is the text written so
    far; exceptions are an explicit outcome. *)

From Stdlib Require Import String Ascii List Bool Arith Lia ZArith.
From Stdlib Require Import Numbers.DecimalString.
Import ListNotations.
Local Open Scope list_scope.
Local Open Scope string_scope.

(* ===================================================================== *)
(** ** Python [str] operations used by the generator *)
(* ===================================================================== *)

Module PyStr.

Definition chr (n : nat) : ascii := ascii_of_nat n.

(** Line feed, carriage return, tab, space, and the double quote. *)
Definition LF : ascii := chr 10.
Definition CR : ascii := chr 13.
Definition TAB : ascii := chr 9.
Definition SP : ascii := chr 32.
Definition nl : string := String LF "".
Definition dq : string := String (chr 34) "".

(** [' ' * n] *)
Fixpoint spaces (n : nat) : string :=
  match n with
  | O => ""
  | S k => String SP (spaces k)
  end.

(** [s != ''] *)
Definition nonempty (s : string) : bool :=
  match s with
  | "" => false
  | String _ _ => true
  end.

(** [s.startswith(p)] *)
Definition startswith (s p : string) : bool := String.prefix p s.

(** [s.endswith('\n')] for a one-character suffix *)
Fixpoint endswith_char (s : string) (c : ascii) : bool :=
  match s with
  | "" => false
  | String a "" => Ascii.eqb a c
  | String _ s' => endswith_char s' c
  end.

(** [s.lstrip(c)] for a one-character set *)
Fixpoint lstrip (c : ascii) (s : string) : string :=
  match s with
  | "" => ""
  | String a s' => if Ascii.eqb a c then lstrip c s' else s
  end.

(** [s.rstrip(c)] for a one-character set *)
Fixpoint rstrip (c : ascii) (s : string) : string :=
  match s with
  | "" => ""
  | String a s' =>
      let r := rstrip c s' in
      if Ascii.eqb a c && negb (nonempty r) then "" else String a r
  end.

(** Drop the first [n] characters: [s[n:]] *)
Fixpoint drop (n : nat) (s : string) : string :=
  match n, s with
  | O, _ => s
  | S _, "" => ""
  | S k, String _ s' => drop k s'
  end.

(** [s.replace(old, new)]: every non-overlapping occurrence, leftmost first.
    [skip] counts the characters of a matched occurrence still to pass. *)
Fixpoint replace_from (old new : string) (skip : nat) (s : string) : string :=
  match s with
  | "" => ""
  | String c s' =>
      match skip with
      | S k => replace_from old new k s'
      | O =>
          if startswith s old
          then new ++ replace_from old new (String.length old - 1) s'
          else String c (replace_from old new O s')
      end
  end.

(** With an empty [old], Python puts [new] before every character and at
    the end. *)
Fixpoint intersperse (new s : string) : string :=
  match s with
  | "" => new
  | String c s' => new ++ String c (intersperse new s')
  end.

Definition replace (old new s : string) : string :=
  match old with
  | "" => intersperse new s
  | _ => replace_from old new O s
  end.

(** [sep.join(l)] *)
Definition join (sep : string) (l : list string) : string :=
  String.concat sep l.

(** [x in l] for a list of strings *)
Definition str_in (x : string) (l : list string) : bool :=
  existsb (String.eqb x) l.

(** [str(n)] for an [int] *)
Definition str_of_int (z : Z) : string :=
  NilZero.string_of_int (Z.to_int z).

(** [s.split('\n')] *)
Fixpoint split_nl (s : string) : list string :=
  match s with
  | "" => [""]
  | String c s' =>
      let r := split_nl s' in
      if Ascii.eqb c LF then "" :: r
      else match r with
           | [] => [String c ""]
           | l :: ls => String c l :: ls
           end
  end.

(** The line boundaries of [str.splitlines] among the code points below
    256: LF, VT, FF, CR, FS, GS, RS and NEL; CR LF counts once. *)
Definition is_linebreak (c : ascii) : bool :=
  let n := nat_of_ascii c in
  (((10 <=? n) && (n <=? 13)) || ((28 <=? n) && (n <=? 30)) || (n =? 133))%nat.

(** [s.splitlines(True)] *)
Fixpoint splitlines_keepends (s : string) : list string :=
  match s with
  | "" => []
  | String c s' =>
      let r := splitlines_keepends s' in
      let crlf := Ascii.eqb c CR &&
                  match s' with String d _ => Ascii.eqb d LF | "" => false end in
      if is_linebreak c && negb crlf then String c "" :: r
      else match r with
           | [] => [String c ""]
           | l :: ls => String c l :: ls
           end
  end.

(** [c.isspace()] below 256 *)
Definition isspace (c : ascii) : bool :=
  let n := nat_of_ascii c in
  (((9 <=? n) && (n <=? 13)) || ((28 <=? n) && (n <=? 32)) ||
   (n =? 133) || (n =? 160))%nat.

(** [bool(line.strip())]: the line has a character that is not white *)
Fixpoint has_nonspace (s : string) : bool :=
  match s with
  | "" => false
  | String c s' => negb (isspace c) || has_nonspace s'
  end.

End PyStr.

(* ===================================================================== *)
(** ** [textwrap.indent] and [textwrap.dedent] *)
(* ===================================================================== *)

Module Textwrap.
Import PyStr.

(** [textwrap.indent(text, prefix)] with the default predicate: the prefix
    goes before every line that is not only white space. *)
Definition indent (text prefix : string) : string :=
  join "" (map (fun line => if has_nonspace line then prefix ++ line else line)
               (splitlines_keepends text)).

(** [[ \t]] *)
Definition is_blank_char (c : ascii) : bool :=
  Ascii.eqb c SP || Ascii.eqb c TAB.

Fixpoint all_blank (s : string) : bool :=
  match s with
  | "" => true
  | String c s' => is_blank_char c && all_blank s'
  end.

(** The longest run of blanks and tabs a line starts with. *)
Fixpoint leading_ws (s : string) : string :=
  match s with
  | "" => ""
  | String c s' => if is_blank_char c then String c (leading_ws s') else ""
  end.

(** [_whitespace_only_re.sub('', text)], line by line *)
Definition blank_to_empty (line : string) : string :=
  if all_blank line then "" else line.

(** [_leading_whitespace_re.findall(text)]: the indentation of every line
    that has a character other than a blank or a tab. *)
Definition indents (lines : list string) : list string :=
  map leading_ws (filter (fun l => negb (all_blank l)) lines).

Fixpoint common_prefix (a b : string) : string :=
  match a, b with
  | String x a', String y b' =>
      if Ascii.eqb x y then String x (common_prefix a' b') else ""
  | _, _ => ""
  end.

(** One turn of the margin loop of [dedent]. *)
Definition margin_step (margin : option string) (ind : string) : option string :=
  match margin with
  | None => Some ind
  | Some m =>
      if startswith ind m then Some m
      else if startswith m ind then Some ind
      else Some (common_prefix m ind)
  end.

(** [re.sub(r'(?m)^' + margin, '', text)], line by line *)
Definition strip_margin (margin line : string) : string :=
  if startswith line margin then drop (String.length margin) line else line.

(** [textwrap.dedent(text)], the regular-expression version: blank-only
    lines are emptied, the margin is the common leading white space of the
    other lines, and it is removed at every line start. *)
Definition dedent (text : string) : string :=
  let lines := map blank_to_empty (split_nl text) in
  match fold_left margin_step (indents lines) None with
  | Some m =>
      if nonempty m then join nl (map (strip_margin m) lines)
      else join nl lines
  | None => join nl lines
  end.

End Textwrap.

Import PyStr Textwrap.

(* ===================================================================== *)
(** ** Configuration model *)
(* ===================================================================== *)

Record Variant := mkVariant {
  alltypes : bool;
  extra_3c_args : list string;
  friendly_name_suffix : string;
  is_comparative_varient : bool
}.

Record BenchmarkComponent := mkComponent {
  comp_friendly_name : option string;
  subdir : option string;
  build_dir : option string
}.

Record BenchmarkInfo := mkBenchmark {
  name : string;
  friendly_name : string;
  dir_name : string;
  build_cmds : string;
  build_converted_cmd : string;
  convert_extra : option string;
  components : option (list BenchmarkComponent);
  patch_dir : option string;
  disallow_for_comparative_varients : bool
}.

Record WorkflowConfig := mkConfig {
  filename : string;
  config_friendly_name : string;
  variants : list Variant;
  cron_timestamp : option string;
  generate_stats : bool
}.

(** [BenchmarkInfo.is_allowed] *)
Definition is_allowed (binfo : BenchmarkInfo) (var : Variant) : bool :=
  negb (disallow_for_comparative_varients binfo) ||
  negb (is_comparative_varient var).

(** The parsed command line ([args]); the fields after [subvariants] only
    exist after the [local] subcommand. *)
Record Args := mkArgs {
  run_locally : bool;
  benchmarks_filter : list string;
  subvariants : list string;
  out_fname : string;
  _3c_source_dir : string;
  _3c_build_dir : string;
  checkedc_benchmarks_dir : string;
  work_dir : string;
  use_built_extra_tools : bool;
  workflow_config : string
}.

Definition ninja_std : string := "ninja -l $(nproc)".
Definition make_std : string := "make -j $(nproc) -l $(nproc) --output-sync".
Definition make_checkedc : string :=
  make_std ++ " CC=" ++ dq ++ "${{env.builddir}}/bin/clang" ++ dq.
Definition cmake_checkedc : string :=
  "cmake -DCMAKE_C_COMPILER=${{env.builddir}}/bin/clang".
Definition common_cflags : string := "-w -ferror-limit=0".

Definition stats_filenames : list string :=
  [ "PerWildPtrStats.json"; "TotalConstraintStats.json.aggregate.json";
    "TotalConstraintStats.json"; "WildPtrStats.json" ].

(* ===================================================================== *)
(** ** Steps and their two renderings *)
(* ===================================================================== *)

(** The values of an action's [args] dictionary. *)
Inductive ArgVal :=
| AStr (s : string)
| AInt (z : Z).

Definition format_argval (v : ArgVal) : string :=
  match v with
  | AStr s => s
  | AInt z => str_of_int z
  end.

(** [Step] with its two subclasses. The [args] dictionary keeps its
    insertion order. *)
Inductive Step :=
| RunStep (step_name : string) (run : string)
| ActionStep (step_name : string) (action_name : string)
             (args : list (string * ArgVal)).

Definition step_name_of (s : Step) : string :=
  match s with
  | RunStep n _ => n
  | ActionStep n _ _ => n
  end.

Definition is_run_step (s : Step) : bool :=
  match s with
  | RunStep _ _ => true
  | ActionStep _ _ _ => false
  end.

Inductive exn :=
| NotImplementedError (msg : string)
| SystemExit (msg : string)
| OSError (msg : string).

(** The result of a call that may raise. *)
Inductive outcome (A : Type) :=
| Return (a : A)
| Raise (e : exn).
Arguments Return {A} a.
Arguments Raise {A} e.

(** [format_body] *)
Definition format_body (s : Step) : string :=
  match s with
  | RunStep _ run => "run: |" ++ nl ++ indent run (spaces 2)
  | ActionStep _ action_name args =>
      let formatted_args :=
        join "" (map (fun kv => fst kv ++ ": " ++ format_argval (snd kv) ++ nl)
                     args) in
      dedent (spaces 12 ++ "uses: " ++ action_name ++ nl ++
              spaces 12 ++ "with:" ++ nl ++
              spaces 8)
      ++ indent formatted_args (spaces 2)
  end.

(** [Step.__str__]: the entry of a job's [steps:] list *)
Definition step_str (s : Step) : string :=
  let step := "- name: " ++ step_name_of s ++ nl ++
              indent (format_body s) (spaces 2) in
  indent step (spaces 6).

(** [format_local] *)
Definition format_local (s : Step) : outcome string :=
  match s with
  | RunStep n run => Return (nl ++ "## " ++ n ++ nl ++ run)
  | ActionStep _ _ _ =>
      Raise (NotImplementedError "ActionStep currently isn't supported locally.")
  end.

(** [s + '\n' if s != '' and not s.endswith('\n') else s] *)
Definition ensure_trailing_newline (s : string) : string :=
  if nonempty s && negb (endswith_char s LF) then s ++ nl else s.

(** [posixpath.join] of two paths *)
Definition path_join (a b : string) : string :=
  if startswith b "/" then b
  else if negb (nonempty a) || endswith_char a (chr 47) then a ++ b
  else a ++ "/" ++ b.

(* ===================================================================== *)
(** ** The output stream and the generator monad *)
(* ===================================================================== *)

Definition TextIO := string.

(** A computation over the stream [out] that may raise. *)
Definition Gen (A : Type) := TextIO -> outcome A * TextIO.

Definition ret {A} (a : A) : Gen A := fun out => (Return a, out).

Definition bind {A B} (m : Gen A) (k : A -> Gen B) : Gen B :=
  fun out =>
    match m out with
    | (Return a, out') => k a out'
    | (Raise e, out') => (Raise e, out')
    end.

(** [out.write(s)] *)
Definition write (s : string) : Gen unit := fun out => (Return tt, out ++ s).

(** Evaluate a pure call that may raise. *)
Definition lift {A} (o : outcome A) : Gen A := fun out => (o, out).

Notation "x <- m ;; k" := (bind m (fun x => k))
  (at level 61, m at next level, right associativity).
Notation "m ;;; k" := (bind m (fun _ => k))
  (at level 61, right associativity).

(** [for x in l: body(x)] *)
Fixpoint for_each {A} (l : list A) (body : A -> Gen unit) : Gen unit :=
  match l with
  | [] => ret tt
  | x :: l' => body x ;;; for_each l' body
  end.

(** The generator expression [(s.format_local() for s in steps)] consumed by
    [join]: the first step that raises ends it. *)
Fixpoint format_local_all (steps : list Step) : outcome (list string) :=
  match steps with
  | [] => Return []
  | s :: rest =>
      match format_local s with
      | Raise e => Raise e
      | Return t =>
          match format_local_all rest with
          | Raise e => Raise e
          | Return ts => Return (t :: ts)
          end
      end
  end.

(* ===================================================================== *)
(** ** [generate_benchmark_job] *)
(* ===================================================================== *)

Section Job.

Variable args : Args.

(** The subvariant name as first assigned: the macro and alltypes parts. *)
Definition subvariant_name_base (expand_macros : bool) (variant : Variant) : string :=
  (if expand_macros then "" else "no_") ++ "expand_macros_" ++
  (if alltypes variant then "" else "no_") ++ "alltypes".

(** [subvariant_convert_extra] before the loop over the extra arguments. *)
Definition subvariant_convert_extra_base (expand_macros : bool) (variant : Variant)
  : string :=
  let e0 := "" in
  let e1 := if alltypes variant
            then e0 ++ "--extra-3c-arg=-alltypes \" ++ nl else e0 in
  if expand_macros
  then e1 ++ "--expand_macros_before_conversion \" ++ nl else e1.

(** The body of [for earg in variant.extra_3c_args], on the pair
    ([subvariant_convert_extra], [subvariant_name]). *)
Definition extra_arg_body (st : string * string) (earg : string) : string * string :=
  (fst st ++ "--extra-3c-arg=" ++ earg ++ " \" ++ nl,
   snd st ++ "_" ++ replace "-" "_" (lstrip "-"%char earg)).

Definition extra_arg_loop (variant : Variant) (st : string * string)
  : string * string :=
  fold_left extra_arg_body (extra_3c_args variant) st.

(** The final value of [subvariant_name]. *)
Definition subvariant_name (expand_macros : bool) (variant : Variant) : string :=
  snd (extra_arg_loop variant
         (subvariant_convert_extra_base expand_macros variant,
          subvariant_name_base expand_macros variant)).

(** The final value of [subvariant_convert_extra]. *)
Definition subvariant_convert_extra (expand_macros : bool) (variant : Variant)
  : string :=
  fst (extra_arg_loop variant
         (subvariant_convert_extra_base expand_macros variant,
          subvariant_name_base expand_macros variant)).

Definition subvariant_friendly (expand_macros : bool) (variant : Variant) : string :=
  (if expand_macros then "" else "not ") ++ "macro-expanded, " ++
  (if alltypes variant then "" else "no ") ++ "-alltypes" ++
  friendly_name_suffix variant.

Definition subvariant_dir (sv_name : string) : string :=
  "${{env.benchmark_conv_dir}}/" ++ sv_name.

Definition benchmark_dir (binfo : BenchmarkInfo) (sv_name : string) : string :=
  subvariant_dir sv_name ++ "/" ++ dir_name binfo.

Definition benchmark_convert_extra (binfo : BenchmarkInfo) : string :=
  match convert_extra binfo with
  | Some e => ensure_trailing_newline e
  | None => ""
  end.

Definition at_filter_step (variant : Variant) : string :=
  if alltypes variant then " (filter bounds inference errors)" else "".

Definition at_filter_code (variant : Variant) : string :=
  if alltypes variant
  then " 2>&1 | ${{env.actions_repo}}/filter-bounds-inference-errors.py"
  else "".

(** The header written before the steps of a job. *)
Definition job_header (binfo : BenchmarkInfo) (sv_name sv_friendly : string)
  (locally : bool) : string :=
  if locally
  then nl ++ "# Test " ++ friendly_name binfo ++ " (" ++ sv_friendly ++ ")" ++ nl
  else nl ++
       "  test_" ++ name binfo ++ "_" ++ sv_name ++ ":" ++ nl ++
       "    name: Test " ++ friendly_name binfo ++ " (" ++ sv_friendly ++ ")" ++ nl ++
       "    needs: build_3c" ++ nl ++
       "    runs-on: self-hosted" ++ nl ++
       "    steps:" ++ nl.

(** [if binfo.patch_dir:] holds for a patch directory that is neither
    [None] nor empty. *)
Definition apply_patch_cmd (binfo : BenchmarkInfo) : string :=
  match patch_dir binfo with
  | Some p =>
      if nonempty p
      then dedent (spaces 12 ++ "for i in ${{env.benchmark_tar_dir}}/" ++ p ++
                   "/*; do patch -s -p0 < $i; done" ++ nl ++
                   spaces 8)
      else ""
  | None => ""
  end.

Definition change_dir (binfo : BenchmarkInfo) : string :=
  dedent (spaces 8 ++ "cd " ++ dir_name binfo ++ nl ++ spaces 4).

Definition full_build_cmds (binfo : BenchmarkInfo) (sv_name : string) : string :=
  dedent (spaces 8 ++ "mkdir -p " ++ subvariant_dir sv_name ++ nl ++
          spaces 8 ++ "cd " ++ subvariant_dir sv_name ++ nl ++
          spaces 8 ++ "rm -rf " ++ dir_name binfo ++ nl ++
          spaces 8 ++ "tar -xvzf ${{env.benchmark_tar_dir}}/" ++
                      dir_name binfo ++ ".tar.gz" ++ nl ++
          spaces 4)
  ++ apply_patch_cmd binfo ++ change_dir binfo
  ++ ensure_trailing_newline (build_cmds binfo).

Definition build_step (binfo : BenchmarkInfo) (sv_name : string) : Step :=
  RunStep ("Build " ++ friendly_name binfo) (full_build_cmds binfo sv_name).

(** [components], with the default of one component named after the
    benchmark. *)
Definition components_of (binfo : BenchmarkInfo) : list BenchmarkComponent :=
  match components binfo with
  | Some cs => cs
  | None => [mkComponent (Some (friendly_name binfo)) None None]
  end.

Definition defer_failure (binfo : BenchmarkInfo) : bool :=
  (1 <? List.length (components_of binfo))%nat.

Definition failed_components_fname (binfo : BenchmarkInfo) (sv_name : string)
  : string :=
  benchmark_dir binfo sv_name ++ "/failed-components-list.txt".

Definition component_dir (binfo : BenchmarkInfo) (sv_name : string)
  (component : BenchmarkComponent) : string :=
  match subdir component with
  | Some d => benchmark_dir binfo sv_name ++ "/" ++ d
  | None => benchmark_dir binfo sv_name
  end.

(** [component.friendly_name or binfo.friendly_name] *)
Definition component_friendly_name (binfo : BenchmarkInfo)
  (component : BenchmarkComponent) : string :=
  match comp_friendly_name component with
  | Some n => if nonempty n then n else friendly_name binfo
  | None => friendly_name binfo
  end.

Definition build_dir_flag (component : BenchmarkComponent) : string :=
  match build_dir component with
  | Some d => " \" ++ nl ++ "--build_dir " ++ d
  | None => ""
  end.

Definition convert_flags (binfo : BenchmarkInfo) (sv_convert_extra : string)
  (component : BenchmarkComponent) : string :=
  indent (benchmark_convert_extra binfo ++
          "--prog_name ${{env.builddir}}/bin/3c \" ++ nl ++
          sv_convert_extra ++
          "--project_path ." ++
          build_dir_flag component ++
          nl)
         (spaces 2).

Definition convert_step (binfo : BenchmarkInfo) (sv_name sv_convert_extra : string)
  (component : BenchmarkComponent) : Step :=
  RunStep ("Convert " ++ component_friendly_name binfo component)
          (dedent (spaces 20 ++ "cd " ++ component_dir binfo sv_name component ++ nl ++
                   spaces 20 ++ "${{env.port_tools}}/convert_project.py \" ++ nl ++
                   spaces 16)
           ++ convert_flags binfo sv_convert_extra component).

Definition perf_artifact_name (binfo : BenchmarkInfo) (sv_name : string)
  (component : BenchmarkComponent) : string :=
  component_friendly_name binfo component ++ "_" ++ sv_name.

Definition all_stats_dir : string := "${{env.benchmark_conv_dir}}/stats".

Definition stats_zip (binfo : BenchmarkInfo) (sv_name : string)
  (component : BenchmarkComponent) : string :=
  all_stats_dir ++ "/" ++ perf_artifact_name binfo sv_name component ++ ".zip".

Definition save_stats_step (binfo : BenchmarkInfo) (sv_name : string)
  (component : BenchmarkComponent) : Step :=
  RunStep ("Save 3c stats of " ++ component_friendly_name binfo component)
          (dedent (spaces 28 ++ "cd " ++ component_dir binfo sv_name component ++ nl ++
                   spaces 28 ++ "mkdir -p " ++ all_stats_dir ++ nl ++
                   spaces 28 ++ "rm -f " ++ stats_zip binfo sv_name component ++ nl ++
                   spaces 28 ++ "zip " ++ stats_zip binfo sv_name component ++ " " ++
                                join " " stats_filenames ++ nl ++
                   spaces 24)).

Definition perf_dir_name : string := "3c_performance_stats/".

Definition copy_stats_step (binfo : BenchmarkInfo) (sv_name : string)
  (component : BenchmarkComponent) : Step :=
  RunStep ("Copy 3c stats of " ++ component_friendly_name binfo component)
          (dedent (spaces 28 ++ "cd " ++ component_dir binfo sv_name component ++ nl ++
                   spaces 28 ++ "mkdir " ++ perf_dir_name ++ nl ++
                   spaces 28 ++ "cp " ++ join " " stats_filenames ++ " " ++
                                perf_dir_name ++ nl ++
                   spaces 24)).

Definition upload_stats_step (binfo : BenchmarkInfo) (sv_name : string)
  (component : BenchmarkComponent) : Step :=
  ActionStep ("Upload 3c stats of " ++ component_friendly_name binfo component)
             "actions/upload-artifact@v2"
             [ ("name", AStr (perf_artifact_name binfo sv_name component));
               ("path", AStr (path_join (component_dir binfo sv_name component)
                                        perf_dir_name));
               ("retention-days", AInt 5) ].

Definition defer_failure_step (binfo : BenchmarkInfo) : string :=
  if defer_failure binfo then " (defer failure)" else "".

Definition defer_failure_code (binfo : BenchmarkInfo) (sv_name : string)
  (component : BenchmarkComponent) : string :=
  if defer_failure binfo
  then " || echo " ++ component_friendly_name binfo component ++ " >>" ++
       failed_components_fname binfo sv_name
  else "".

Definition build_converted_step (binfo : BenchmarkInfo) (variant : Variant)
  (sv_name : string) (component : BenchmarkComponent) : Step :=
  RunStep ("Build converted " ++ component_friendly_name binfo component ++
           at_filter_step variant ++ defer_failure_step binfo)
          (dedent (spaces 20 ++ "cd " ++ component_dir binfo sv_name component ++ nl ++
                   spaces 20 ++ "if [ -e " ++ dq ++ "out.checked" ++ dq ++
                     " ]; then cp -r out.checked/* . && rm -r out.checked; fi" ++ nl ++
                   spaces 16)
           ++ match build_dir component with
              | Some d => "cd " ++ d ++ nl
              | None => ""
              end
           ++ rstrip LF (build_converted_cmd binfo) ++ at_filter_code variant ++
              defer_failure_code binfo sv_name component ++ nl).

Definition check_deferred_step (binfo : BenchmarkInfo) (sv_name : string) : Step :=
  RunStep "Check for deferred post-conversion build failures"
          ("if [ -e " ++ failed_components_fname binfo sv_name ++ " ]; then" ++ nl ++
           "    echo 'Failed components (see previous post-conversion build steps):'" ++ nl ++
           "    cat " ++ failed_components_fname binfo sv_name ++ nl ++
           "    exit 1" ++ nl ++
           "fi" ++ nl).

(** The body of [for component in components], on the list [steps]; every
    [steps.append] adds at the end. *)
Definition component_body (binfo : BenchmarkInfo) (variant : Variant)
  (sv_name sv_convert_extra : string) (stats locally : bool)
  (steps : list Step) (component : BenchmarkComponent) : list Step :=
  let steps1 := (steps ++ [convert_step binfo sv_name sv_convert_extra component])%list in
  let steps2 :=
    if stats then
      if locally
      then (steps1 ++ [save_stats_step binfo sv_name component])%list
      else ((steps1 ++ [copy_stats_step binfo sv_name component])
                    ++ [upload_stats_step binfo sv_name component])%list
    else steps1 in
  (steps2 ++ [build_converted_step binfo variant sv_name component])%list.

(** The list [steps] when the job is written out. *)
Definition job_steps (binfo : BenchmarkInfo) (variant : Variant)
  (sv_name sv_convert_extra : string) (stats locally : bool) : list Step :=
  let steps0 := [build_step binfo sv_name] in
  let steps1 :=
    fold_left (component_body binfo variant sv_name sv_convert_extra stats locally)
              (components_of binfo) steps0 in
  if defer_failure binfo
  then (steps1 ++ [check_deferred_step binfo sv_name])%list
  else steps1.

(** The last statement: render the steps and write them. *)
Definition write_steps (steps : list Step) (locally : bool) : Gen unit :=
  if locally
  then texts <- lift (format_local_all steps) ;; write (join "" texts)
  else write (join nl (map step_str steps)).

Definition generate_benchmark_job (binfo : BenchmarkInfo) (expand_macros : bool)
  (variant : Variant) (stats locally : bool) : Gen unit :=
  if negb (is_allowed binfo variant) then ret tt
  else
    let sv_name0 := subvariant_name_base expand_macros variant in
    if negb (match subvariants args with [] => true | _ => false end) &&
       negb (str_in sv_name0 (subvariants args))
    then ret tt
    else
      let st := extra_arg_loop variant
                  (subvariant_convert_extra_base expand_macros variant, sv_name0) in
      let sv_convert_extra := fst st in
      let sv_name := snd st in
      let sv_friendly := subvariant_friendly expand_macros variant in
      write (job_header binfo sv_name sv_friendly locally) ;;;
      write_steps (job_steps binfo variant sv_name sv_convert_extra stats locally)
                  locally.

End Job.

(* ===================================================================== *)
(** ** Workflow configurations and the emitters *)
(* ===================================================================== *)

Definition workflow_file_configs : list WorkflowConfig :=
  [ mkConfig "main" "3C benchmark tests"
      [ mkVariant false [] "" false; mkVariant true [] "" false ]
      (Some "0 5 * * *") false;
    mkConfig "exhaustivestats" "Exhaustive testing and Performance Stats"
      [ mkVariant false [] "" false; mkVariant true [] "" false ]
      None true;
    mkConfig "exhaustiveleastgreatest"
      "Exhaustive testing and Performance Stats (Least and Greatest)"
      [ mkVariant true ["-only-g-sol"] ", greatest solution" true;
        mkVariant true ["-only-l-sol"] ", least solution" true ]
      None true;
    mkConfig "exhaustiveccured"
      "Exhaustive testing and Performance Stats (CCured)"
      [ mkVariant true ["-disable-rds"] ", CCured solution" true;
        mkVariant true ["-disable-fnedgs"] ", FuncRevEdges solution" true ]
      None true ].

(** A file system as far as the generator looks at it: what a path names. *)
Inductive Node :=
| File (content : string)
| Dir.

Definition FileSystem := string -> option Node.

(** [os.path.exists] *)
Definition path_exists (fs : FileSystem) (p : string) : bool :=
  match fs p with
  | Some _ => true
  | None => false
  end.

(** The creation modes handed to the operating system: [0o666] by the
    built-in [open], [0o777] by [executable_file_opener]. *)
Definition default_file_mode : Z := 438.
Definition executable_file_mode : Z := 511.

Section Emit.

(** The table [benchmarks], the text [HEADER] (with [{ninja_std}] already
    replaced), and what the operating system answers: [os.path.abspath] and
    the directory of the script itself. *)
Variable benchmarks : list BenchmarkInfo.
Variable HEADER : string.
Variable abspath : string -> string.
Variable script_dir : string.

(** Writing is the operating system's: [os_open fs p mode] is
    [open(p, 'w')] with that creation mode, which creates or truncates the
    file or raises (a missing directory, a directory at [p], no permission);
    [os_write_close fs p text] is the writes of [text] to the file just
    opened and its close. Either may change what any path names, so two
    spellings of one file stay one file. *)
Variable os_open : FileSystem -> string -> Z -> outcome unit * FileSystem.
Variable os_write_close : FileSystem -> string -> string -> outcome unit * FileSystem.

Variable args : Args.

(** [with open(p, 'w') as out: out.write(text)] *)
Definition save_text (fs : FileSystem) (p : string) (mode : Z) (text : string)
  : outcome unit * FileSystem :=
  match os_open fs p mode with
  | (Raise e, fs1) => (Raise e, fs1)
  | (Return _, fs1) => os_write_close fs1 p text
  end.

Definition generate_benchmark_jobs (config : WorkflowConfig) (locally : bool)
  : Gen unit :=
  for_each benchmarks (fun binfo =>
    if negb (match benchmarks_filter args with [] => true | _ => false end) &&
       negb (str_in (name binfo) (benchmarks_filter args))
    then ret tt
    else
      for_each [false; true] (fun expand_macros =>
        for_each (variants config) (fun variant =>
          generate_benchmark_job args binfo expand_macros variant
                                 (generate_stats config) locally))).

Definition optional_schedule_trigger (config : WorkflowConfig) : string :=
  match cron_timestamp config with
  | None => ""
  | Some t =>
      "  # Run every day at the following time." ++ nl ++
      "  schedule:" ++ nl ++
      "    - cron: " ++ dq ++ t ++ dq ++ nl
  end.

(** The file is opened first and is open while the jobs are generated, so
    it gets whatever was written when the block is left, also when the
    generation raises; an error of the close comes last. *)
Definition generate_github_workflow (config : WorkflowConfig) (fs : FileSystem)
  : outcome unit * FileSystem :=
  let path := ".github/workflows/" ++ filename config ++ ".yml" in
  match os_open fs path default_file_mode with
  | (Raise e, fs1) => (Raise e, fs1)
  | (Return _, fs1) =>
      let formatted_hdr :=
        replace "{optional_schedule_trigger}" (optional_schedule_trigger config)
          (replace "{workflow.name}" (config_friendly_name config) HEADER) in
      let r := (write formatted_hdr ;;; generate_benchmark_jobs config false) "" in
      match os_write_close fs1 path (snd r) with
      | (Raise e, fs2) => (Raise e, fs2)
      | (Return _, fs2) => (fst r, fs2)
      end
  end.

(** The paths resolved before [generate_local_script] is called. *)
Record LocalPaths := mkLocalPaths {
  local_3c_build_dir : string;
  local_port_tools : string;
  local_checkedc_benchmarks_dir : string
}.

Definition get_extra_tool_path (paths : LocalPaths) (tool : string) : string :=
  if use_built_extra_tools args
  then path_join (path_join (local_3c_build_dir paths) "bin") tool
  else tool.

Definition env_replacements (paths : LocalPaths) : list (string * string) :=
  [ ("actions_repo", script_dir);
    ("benchmark_tar_dir", local_checkedc_benchmarks_dir paths);
    ("benchmark_conv_dir", abspath (work_dir args));
    ("builddir", local_3c_build_dir paths);
    ("port_tools", local_port_tools paths);
    ("clang_rename", get_extra_tool_path paths "clang-rename") ].

Definition local_script_header (config : WorkflowConfig) : string :=
  "#!/bin/bash" ++ nl ++
  "# This script was generated by `generate-workflow.py local` but may be manually" ++ nl ++
  "# edited by a user for customization." ++ nl ++
  "#" ++ nl ++
  "# Workflow configuration name: " ++ filename config ++ nl.

(** The script is built in memory; the file is opened only once the text is
    complete. *)
Definition generate_local_script (paths : LocalPaths) (config : WorkflowConfig)
  (fs : FileSystem) : outcome unit * FileSystem :=
  match (write (local_script_header config) ;;;
         generate_benchmark_jobs config true) "" with
  | (Raise e, _) => (Raise e, fs)
  | (Return _, script) =>
      let script' :=
        fold_left (fun s kv => replace ("${{env." ++ fst kv ++ "}}") (snd kv) s)
                  (env_replacements paths) script in
      save_text fs (out_fname args) executable_file_mode script'
  end.

(** [sys.exit('Error: ' + msg)] *)
Definition fatal_error {A} (msg : string) : outcome A :=
  Raise (SystemExit ("Error: " ++ msg)).

(** The statements of the [if args.run_locally:] branch. *)
Definition main_local (fs : FileSystem) : outcome unit * FileSystem :=
  let build := abspath (_3c_build_dir args) in
  if negb (path_exists fs (build ++ "/bin/3c"))
  then (fatal_error (build ++ "/bin/3c does not exist."), fs)
  else
    let port_tools := abspath (_3c_source_dir args) ++
                      "/clang/tools/3c/utils/port_tools" in
    if negb (path_exists fs port_tools)
    then (fatal_error (port_tools ++ " does not exist."), fs)
    else
      let bench := checkedc_benchmarks_dir args in
      if negb (path_exists fs bench)
      then (fatal_error (bench ++ " does not exist."), fs)
      else
        let matching_configs :=
          filter (fun c => String.eqb (filename c) (workflow_config args))
                 workflow_file_configs in
        match matching_configs with
        | [] => (fatal_error ("No such workflow configuration " ++ dq ++
                              workflow_config args ++ dq ++ "."), fs)
        | c :: _ => generate_local_script (mkLocalPaths build port_tools bench) c fs
        end.

(** [for config in workflow_file_configs: generate_github_workflow(config)] *)
Fixpoint generate_all (configs : list WorkflowConfig) (fs : FileSystem)
  : outcome unit * FileSystem :=
  match configs with
  | [] => (Return tt, fs)
  | c :: rest =>
      match generate_github_workflow c fs with
      | (Return _, fs') => generate_all rest fs'
      | (Raise e, fs') => (Raise e, fs')
      end
  end.

(** The script's top level after the command line is parsed. *)
Definition main (fs : FileSystem) : outcome unit * FileSystem :=
  if run_locally args then main_local fs
  else generate_all workflow_file_configs fs.

End Emit.

(* ===================================================================== *)
(** ** Entries of the benchmark table *)
(* ===================================================================== *)

Definition vsftpd_make : string :=
  make_std ++ " CC=" ++ dq ++ "${{env.builddir}}/bin/clang " ++ common_cflags ++
  " -Wno-enum-conversion" ++ dq.

Definition olden_components : list string :=
  [ "bh"; "bisort"; "em3d"; "health"; "mst"; "perimeter"; "power"; "treeadd";
    "tsp"; "voronoi" ].

Definition vsftpd : BenchmarkInfo :=
  mkBenchmark "vsftpd" "Vsftpd" "vsftpd-3.0.3"
    ("bear " ++ vsftpd_make) (vsftpd_make ++ " -k")
    None None None false.

Definition olden : BenchmarkInfo :=
  mkBenchmark "Olden" "Olden" "Olden"
    (dedent (spaces 4 ++ "for i in " ++ join " " olden_components ++ " ; do \" ++ nl ++
             spaces 4 ++ "  (cd $i ; bear " ++ make_checkedc ++ " LOCAL_CFLAGS=" ++ dq ++
               common_cflags ++ " -D_ISOC99_SOURCE" ++ dq ++ ") \" ++ nl ++
             spaces 4 ++ "done" ++ nl ++
             spaces 4))
    (make_checkedc ++ " -k LOCAL_CFLAGS=" ++ dq ++ common_cflags ++
     " -D_ISOC99_SOURCE" ++ dq)
    (Some "--extra-3c-arg=-allow-unwritable-changes \")
    (Some (map (fun c => mkComponent (Some c) (Some c) None) olden_components))
    None false.

Definition zlib : BenchmarkInfo :=
  mkBenchmark "zlib" "ZLib" "zlib-1.2.11"
    (dedent (spaces 8 ++ "mkdir build" ++ nl ++
             spaces 8 ++ "cd build" ++ nl ++
             spaces 8 ++ cmake_checkedc ++ " -G Ninja -DCMAKE_C_FLAGS=" ++ dq ++
               common_cflags ++ dq ++ " .." ++ nl ++
             spaces 8 ++ "bear " ++ ninja_std ++ " zlib" ++ nl ++
             spaces 8))
    (ninja_std ++ " -k 0 zlib")
    (Some "--skip '/.*/test/.*' \")
    (Some [mkComponent None None (Some "build")])
    None false.

(** The first variant of the [exhaustiveleastgreatest] configuration. *)
Definition greatest_solution : Variant :=
  mkVariant true ["-only-g-sol"] ", greatest solution" true.

(** The command line of the default run: no subcommand, no filters. *)
Definition default_args : Args :=
  mkArgs false [] [] "" "" "" "" "" false "".

(* ===================================================================== *)
(** ** The naming and sequencing rules as the specification words them *)
(* ===================================================================== *)

Module Spec.

(** An extra argument with its leading dashes stripped. *)
Fixpoint strip_leading_dashes (s : string) : string :=
  match s with
  | String "-" s' => strip_leading_dashes s'
  | _ => s
  end.

(** Every remaining dash becomes an underscore. *)
Fixpoint dashes_to_underscores (s : string) : string :=
  match s with
  | "" => ""
  | String c s' =>
      String (if Ascii.eqb c "-" then "_"%char else c) (dashes_to_underscores s')
  end.

Definition name_fragment (earg : string) : string :=
  "_" ++ dashes_to_underscores (strip_leading_dashes earg).

Fixpoint name_suffix (eargs : list string) : string :=
  match eargs with
  | [] => ""
  | e :: rest => name_fragment e ++ name_suffix rest
  end.

Definition identifier (V : Variant) (m : bool) : string :=
  (if m then "" else "no_") ++ "expand_macros_" ++
  (if alltypes V then "" else "no_") ++ "alltypes" ++
  name_suffix (extra_3c_args V).

Definition label (V : Variant) (m : bool) : string :=
  (if m then "" else "not ") ++ "macro-expanded, " ++
  (if alltypes V then "" else "no ") ++ "-alltypes" ++ friendly_name_suffix V.

(** The tool-argument fragment: one continuation line per flag. *)
Fixpoint pass_through (eargs : list string) : string :=
  match eargs with
  | [] => ""
  | e :: rest => "--extra-3c-arg=" ++ e ++ " \" ++ nl ++ pass_through rest
  end.

Definition tool_arguments (V : Variant) (m : bool) : string :=
  (if alltypes V then "--extra-3c-arg=-alltypes \" ++ nl else "") ++
  (if m then "--expand_macros_before_conversion \" ++ nl else "") ++
  pass_through (extra_3c_args V).

(** The kinds of step and the sequence the specification gives for a
    benchmark of [N] components: build, then per component convert, one
    stats step when stats are enabled, build-converted, then the aggregate
    check when [N > 1]. *)
Inductive StepKind := KBuild | KConvert | KStats | KBuildConverted | KCheck.

Definition component_kinds (stats : bool) : list StepKind :=
  ([KConvert] ++ (if stats then [KStats] else []) ++ [KBuildConverted])%list.

Definition step_kinds (N : nat) (stats : bool) : list StepKind :=
  ([KBuild] ++ List.concat (repeat (component_kinds stats) N) ++
   (if (1 <? N)%nat then [KCheck] else []))%list.

End Spec.

(** The steps the body of the component loop adds for one component. *)
Definition stats_steps (binfo : BenchmarkInfo) (sv_name : string)
  (stats locally : bool) (component : BenchmarkComponent) : list Step :=
  if stats then
    if locally then [save_stats_step binfo sv_name component]
    else [copy_stats_step binfo sv_name component;
          upload_stats_step binfo sv_name component]
  else [].

Definition component_steps (binfo : BenchmarkInfo) (variant : Variant)
  (sv_name sv_convert_extra : string) (stats locally : bool)
  (component : BenchmarkComponent) : list Step :=
  ([convert_step binfo sv_name sv_convert_extra component] ++
   stats_steps binfo sv_name stats locally component ++
   [build_converted_step binfo variant sv_name component])%list.

(** Whether a call of [generate_benchmark_job] gets past both early
    returns. *)
Definition job_selected (args : Args) (binfo : BenchmarkInfo)
  (expand_macros : bool) (variant : Variant) : bool :=
  is_allowed binfo variant &&
  (match subvariants args with [] => true | _ => false end ||
   str_in (subvariant_name_base expand_macros variant) (subvariants args)).

(** A computation that only appends [text] to the stream and returns. *)
Definition appends (g : Gen unit) (text : string) : Prop :=
  forall out, g out = (Return tt, out ++ text).

(** No line feed in a string. *)
Fixpoint no_lf (s : string) : bool :=
  match s with
  | "" => true
  | String c s' => negb (Ascii.eqb c LF) && no_lf s'
  end.

(** A line of a template: no line feed, and its first character is neither
    a blank nor a tab. *)
Definition template_line (l : string) : bool :=
  no_lf l && negb (all_blank l) &&
  match l with
  | "" => false
  | String c _ => negb (is_blank_char c)
  end.

(** The text of an indented block as the templates write it: every line after
    [n] blanks, then [k] blanks before the closing quotes. *)
Fixpoint block (n : nat) (lines : list string) (k : nat) : string :=
  match lines with
  | [] => spaces k
  | l :: rest => spaces n ++ l ++ nl ++ block n rest k
  end.

Fixpoint unlines (lines : list string) : string :=
  match lines with
  | [] => ""
  | l :: rest => l ++ nl ++ unlines rest
  end.

(** How many steps the stats stage of one component has. *)
Definition stats_step_count (st loc : bool) : nat :=
  if st then if loc then 1 else 2 else 0.

(** The steps of a job, each with the kind of the statement that appends
    it. *)
Definition component_steps_tagged (binfo : BenchmarkInfo) (variant : Variant)
  (sv_name sv_convert_extra : string) (stats locally : bool)
  (component : BenchmarkComponent) : list (Spec.StepKind * Step) :=
  ([(Spec.KConvert, convert_step binfo sv_name sv_convert_extra component)] ++
   map (pair Spec.KStats) (stats_steps binfo sv_name stats locally component) ++
   [(Spec.KBuildConverted, build_converted_step binfo variant sv_name component)])%list.

Definition job_steps_tagged (binfo : BenchmarkInfo) (variant : Variant)
  (sv_name sv_convert_extra : string) (stats locally : bool)
  : list (Spec.StepKind * Step) :=
  (Spec.KBuild, build_step binfo sv_name) ::
  (flat_map (component_steps_tagged binfo variant sv_name sv_convert_extra
                                    stats locally) (components_of binfo)
   ++ (if defer_failure binfo
       then [(Spec.KCheck, check_deferred_step binfo sv_name)] else []))%list.

(** The sequence of kinds with the stats stage as long as the rendering
    mode makes it. *)
Definition step_kinds_by_mode (N : nat) (stats locally : bool) : list Spec.StepKind :=
  ([Spec.KBuild] ++
   List.concat (repeat ([Spec.KConvert] ++
                        repeat Spec.KStats (stats_step_count stats locally) ++
                        [Spec.KBuildConverted]) N) ++
   (if (1 <? N)%nat then [Spec.KCheck] else []))%list.

Definition kind_eqb (a b : Spec.StepKind) : bool :=
  match a, b with
  | Spec.KBuild, Spec.KBuild
  | Spec.KConvert, Spec.KConvert
  | Spec.KStats, Spec.KStats
  | Spec.KBuildConverted, Spec.KBuildConverted
  | Spec.KCheck, Spec.KCheck => true
  | _, _ => false
  end.

Definition count_kind (k : Spec.StepKind) (l : list Spec.StepKind) : nat :=
  List.length (filter (kind_eqb k) l).

(** What a run step puts into the local script. *)
Definition local_text (s : Step) : string :=
  match format_local s with
  | Return t => t
  | Raise _ => ""
  end.

Definition not_implemented : exn :=
  NotImplementedError "ActionStep currently isn't supported locally.".

(** The text a job puts on the stream once it is past both filters. *)
Definition job_text (binfo : BenchmarkInfo) (m : bool) (V : Variant)
  (stats locally : bool) : string :=
  let steps := job_steps binfo V (Spec.identifier V m) (Spec.tool_arguments V m)
                         stats locally in
  job_header binfo (Spec.identifier V m) (Spec.label V m) locally ++
  (if locally then join "" (map local_text steps)
   else join nl (map step_str steps)).

(** The number of components: the length of the declared list, or one. *)
Definition component_count (binfo : BenchmarkInfo) : nat :=
  match components binfo with
  | Some cs => List.length cs
  | None => 1
  end.

(** A text that stops at a line end: empty, or ending in a line feed. *)
Definition line_closed (a : string) : bool :=
  negb (nonempty a) || endswith_char a LF.

(** Whether the loop over the table looks at a benchmark: the benchmark
    filter is empty or holds its name. *)
Definition benchmark_selected (args : Args) (binfo : BenchmarkInfo) : bool :=
  match benchmarks_filter args with
  | [] => true
  | _ => str_in (name binfo) (benchmarks_filter args)
  end.

(** The text one call of [generate_benchmark_job] appends. *)
Definition selected_job_text (args : Args) (binfo : BenchmarkInfo) (m : bool)
  (V : Variant) (stats locally : bool) : string :=
  if job_selected args binfo m V then job_text binfo m V stats locally else "".

(** The text of all jobs of a configuration, in the order of the three
    loops. *)
Definition jobs_text (benchmarks : list BenchmarkInfo) (args : Args)
  (config : WorkflowConfig) (locally : bool) : string :=
  join "" (map (fun binfo =>
    if benchmark_selected args binfo
    then join "" (map (fun m =>
           join "" (map (fun V =>
             selected_job_text args binfo m V (generate_stats config) locally)
             (variants config)))
           [false; true])
    else "") benchmarks).

(** The path of the workflow file of a configuration. *)
Definition workflow_path (config : WorkflowConfig) : string :=
  ".github/workflows/" ++ filename config ++ ".yml".

(** [formatted_hdr] after both replacements. *)
Definition formatted_header (HEADER : string) (config : WorkflowConfig) : string :=
  replace "{optional_schedule_trigger}" (optional_schedule_trigger config)
    (replace "{workflow.name}" (config_friendly_name config) HEADER).

(** The script text after the loop over [env_replacements]. *)
Definition resolve_placeholders (repl : list (string * string)) (script : string)
  : string :=
  fold_left (fun s kv => replace ("${{env." ++ fst kv ++ "}}") (snd kv) s)
            repl script.

(** The patch line of the build step, if there is one. *)
Definition patch_line (binfo : BenchmarkInfo) : string :=
  match patch_dir binfo with
  | Some p =>
      if nonempty p
      then "for i in ${{env.benchmark_tar_dir}}/" ++ p ++
           "/*; do patch -s -p0 < $i; done" ++ nl
      else ""
  | None => ""
  end.

(** [k] line feeds. *)
Fixpoint line_feeds (k : nat) : string :=
  match k with
  | O => ""
  | S k' => String LF (line_feeds k')
  end.

(** The lines of an action's [with:] block, before indentation. *)
Definition formatted_args (kv : list (string * ArgVal)) : string :=
  join "" (map (fun p => fst p ++ ": " ++ format_argval (snd p) ++ nl) kv).

(** A benchmark with its component list replaced. *)
Definition with_components (binfo : BenchmarkInfo)
  (cs : option (list BenchmarkComponent)) : BenchmarkInfo :=
  mkBenchmark (name binfo) (friendly_name binfo) (dir_name binfo)
              (build_cmds binfo) (build_converted_cmd binfo)
              (convert_extra binfo) cs (patch_dir binfo)
              (disallow_for_comparative_varients binfo).

(** No line boundary of [splitlines] in a string. *)
Fixpoint break_free (s : string) : bool :=
  match s with
  | "" => true
  | String c s' => negb (is_linebreak c) && break_free s'
  end.

Definition starts_with_lf (s : string) : bool :=
  match s with
  | String d _ => Ascii.eqb d LF
  | "" => false
  end.

(** What [indent] does to one line. *)
Definition prefix_line (p line : string) : string :=
  if has_nonspace line then p ++ line else line.

(** The commands of a run step end in a line feed. *)
Definition run_closed (s : Step) : bool :=
  match s with
  | RunStep _ run => endswith_char run LF
  | ActionStep _ _ _ => true
  end.

(** One [save_text] after the other, up to the first that raises. *)
Fixpoint save_texts
  (os_open : FileSystem -> string -> Z -> outcome unit * FileSystem)
  (os_write_close : FileSystem -> string -> string -> outcome unit * FileSystem)
  (files : list (string * string)) (fs : FileSystem)
  : outcome unit * FileSystem :=
  match files with
  | [] => (Return tt, fs)
  | (p, text) :: rest =>
      match save_text os_open os_write_close fs p default_file_mode text with
      | (Return _, fs') => save_texts os_open os_write_close rest fs'
      | (Raise e, fs') => (Raise e, fs')
      end
  end.

(** A file system mounted read-only: every open for writing is refused and
    nothing changes. *)
Definition readonly_open (fs : FileSystem) (p : string) (mode : Z)
  : outcome unit * FileSystem :=
  (Raise (OSError ("[Errno 30] Read-only file system: '" ++ p ++ "'")), fs).

Definition readonly_write_close (fs : FileSystem) (p text : string)
  : outcome unit * FileSystem :=
  (Raise (OSError ("[Errno 30] Read-only file system: '" ++ p ++ "'")), fs).

(** A file system in memory where every spelling of a path is a file of its
    own and every open succeeds: one more instance of the two operations. *)
Definition memory_open (fs : FileSystem) (p : string) (mode : Z)
  : outcome unit * FileSystem :=
  (Return tt, fun q => if String.eqb q p then Some (File "") else fs q).

Definition memory_write_close (fs : FileSystem) (p text : string)
  : outcome unit * FileSystem :=
  (Return tt, fun q => if String.eqb q p then Some (File text) else fs q).

(* ===================================================================== *)
(** ** Facts about strings *)
(* ===================================================================== *)

Section StringFacts.

Lemma append_nil_r (s : string) : s ++ "" = s.
Proof. induction s as [|c s IH]; simpl; [reflexivity | now rewrite IH]. Qed.

Lemma append_assoc (a b c : string) : (a ++ b) ++ c = a ++ b ++ c.
Proof. induction a as [|x a IH]; simpl; [reflexivity | now rewrite IH]. Qed.

Lemma length_append (a b : string) :
  String.length (a ++ b) = (String.length a + String.length b)%nat.
Proof. induction a as [|x a IH]; simpl; [reflexivity | now rewrite IH]. Qed.

Lemma append_inv_head (p a b : string) : p ++ a = p ++ b -> a = b.
Proof.
  induction p as [|x p IH]; simpl; intros H; [exact H |].
  injection H as H. now apply IH.
Qed.

(** Appending a text that is not empty changes a string. *)
Lemma append_nonempty_neq (out t : string) : nonempty t = true -> out ++ t <> out.
Proof.
  intros Ht Heq.
  assert (L : String.length (out ++ t) = String.length out) by now rewrite Heq.
  rewrite length_append in L. destruct t; [discriminate | simpl in L; lia].
Qed.

Lemma join_empty_app (l1 l2 : list string) :
  join "" (l1 ++ l2)%list = join "" l1 ++ join "" l2.
Proof.
  unfold join. induction l1 as [|x l1 IH]; simpl; [reflexivity |].
  destruct l1 as [|y l1].
  - simpl. destruct l2; simpl; [now rewrite append_nil_r | reflexivity].
  - simpl in *. rewrite IH. now rewrite append_assoc.
Qed.

Lemma startswith_dash (c : ascii) (s : string) :
  startswith (String c s) "-" = Ascii.eqb c "-".
Proof.
  unfold startswith. cbn [String.prefix].
  destruct (ascii_dec "-" c) as [E|E].
  - subst c. destruct s; reflexivity.
  - symmetry. apply Ascii.eqb_neq. congruence.
Qed.

(** On a one-character pattern, [replace] maps over the characters. *)
Lemma replace_dash (s : string) : replace "-" "_" s = Spec.dashes_to_underscores s.
Proof.
  unfold replace. induction s as [|c s IH]; [reflexivity |].
  cbn [replace_from Spec.dashes_to_underscores].
  rewrite startswith_dash. destruct (Ascii.eqb c "-"); simpl; now rewrite IH.
Qed.

Lemma lstrip_dash (s : string) : lstrip "-" s = Spec.strip_leading_dashes s.
Proof.
  induction s as [|c s IH]; [reflexivity |].
  destruct (Ascii.eqb_spec c "-") as [E|E].
  - subst c. simpl. exact IH.
  - cbn [lstrip]. apply Ascii.eqb_neq in E. rewrite E.
    destruct c as [[] [] [] [] [] [] [] []]; try reflexivity; discriminate E.
Qed.

Lemma str_in_In (x : string) (l : list string) : str_in x l = true <-> In x l.
Proof.
  unfold str_in. rewrite existsb_exists. split.
  - intros [y [Hy E]]. apply String.eqb_eq in E. now subst.
  - intros H. exists x. split; [assumption | apply String.eqb_refl].
Qed.

End StringFacts.

(* ===================================================================== *)
(** ** The two loops in closed form *)
(* ===================================================================== *)

Section Loops.

Lemma extra_arg_loop_closed (l : list string) (e n : string) :
  fold_left extra_arg_body l (e, n)
  = (e ++ Spec.pass_through l, n ++ Spec.name_suffix l).
Proof.
  revert e n. induction l as [|a l IH]; intros e n; simpl.
  - now rewrite !append_nil_r.
  - unfold extra_arg_body at 2. cbn [fst snd]. rewrite IH.
    unfold Spec.name_fragment. rewrite replace_dash, lstrip_dash.
    f_equal; rewrite ?append_assoc; simpl; rewrite ?append_assoc; reflexivity.
Qed.

Lemma subvariant_name_closed (m : bool) (V : Variant) :
  subvariant_name m V = Spec.identifier V m.
Proof.
  unfold subvariant_name, extra_arg_loop. rewrite extra_arg_loop_closed.
  cbn [snd]. unfold subvariant_name_base, Spec.identifier.
  rewrite !append_assoc. reflexivity.
Qed.

Lemma subvariant_convert_extra_closed (m : bool) (V : Variant) :
  subvariant_convert_extra m V = Spec.tool_arguments V m.
Proof.
  unfold subvariant_convert_extra, extra_arg_loop. rewrite extra_arg_loop_closed.
  cbn [fst]. unfold subvariant_convert_extra_base, Spec.tool_arguments.
  destruct (alltypes V), m; rewrite ?append_assoc; reflexivity.
Qed.

Variables (binfo : BenchmarkInfo) (variant : Variant).
Variables (sv_name sv_convert_extra : string) (stats locally : bool).

Lemma component_body_steps (steps : list Step) (c : BenchmarkComponent) :
  component_body binfo variant sv_name sv_convert_extra stats locally steps c
  = (steps ++ component_steps binfo variant sv_name sv_convert_extra stats locally c)%list.
Proof.
  unfold component_body, component_steps, stats_steps.
  destruct stats, locally; cbn [app]; rewrite <- ?app_assoc; reflexivity.
Qed.

Lemma component_loop_closed (cs : list BenchmarkComponent) (steps : list Step) :
  fold_left (component_body binfo variant sv_name sv_convert_extra stats locally)
            cs steps
  = (steps ++ flat_map (component_steps binfo variant sv_name sv_convert_extra
                                        stats locally) cs)%list.
Proof.
  revert steps. induction cs as [|c cs IH]; intros steps; simpl.
  - now rewrite app_nil_r.
  - rewrite IH, component_body_steps, <- app_assoc. reflexivity.
Qed.

Lemma job_steps_closed :
  job_steps binfo variant sv_name sv_convert_extra stats locally
  = (build_step binfo sv_name ::
     flat_map (component_steps binfo variant sv_name sv_convert_extra stats locally)
              (components_of binfo)
     ++ (if defer_failure binfo then [check_deferred_step binfo sv_name] else []))%list.
Proof.
  unfold job_steps. rewrite component_loop_closed.
  destruct (defer_failure binfo); simpl; [reflexivity | now rewrite app_nil_r].
Qed.

Lemma length_flat_map_const {A B} (f : A -> list B) (n : nat) (l : list A) :
  (forall x, List.length (f x) = n) ->
  List.length (flat_map f l) = (List.length l * n)%nat.
Proof.
  intros H. induction l as [|x l IH]; simpl; [reflexivity |].
  rewrite length_app, H, IH. reflexivity.
Qed.

Lemma job_steps_length :
  List.length (job_steps binfo variant sv_name sv_convert_extra stats locally)
  = (1 + List.length (components_of binfo) * (2 + stats_step_count stats locally)
     + (if defer_failure binfo then 1 else 0))%nat.
Proof.
  rewrite job_steps_closed. cbn [List.length]. rewrite length_app.
  rewrite (length_flat_map_const _ (2 + stats_step_count stats locally)).
  - destruct (defer_failure binfo); simpl; lia.
  - intros c. unfold component_steps, stats_steps, stats_step_count.
    destruct stats, locally; reflexivity.
Qed.

End Loops.

(* ===================================================================== *)
(** ** Computations that only append to the stream *)
(* ===================================================================== *)

Section Appends.

Lemma appends_ret : appends (ret tt) "".
Proof. intros out. unfold ret. now rewrite append_nil_r. Qed.

Lemma appends_write (s : string) : appends (write s) s.
Proof. intros out. reflexivity. Qed.

Lemma appends_bind (g : Gen unit) (k : unit -> Gen unit) (t1 t2 : string) :
  appends g t1 -> appends (k tt) t2 -> appends (bind g k) (t1 ++ t2).
Proof.
  intros Hg Hk out. unfold bind. rewrite Hg, Hk, append_assoc. reflexivity.
Qed.

Lemma appends_for_each {A} (l : list A) (body : A -> Gen unit) :
  (forall x, exists t, appends (body x) t) ->
  exists t, appends (for_each l body) t.
Proof.
  intros H. induction l as [|x l [t IH]]; simpl.
  - exists "". apply appends_ret.
  - destruct (H x) as [tx Hx]. exists (tx ++ t). now apply appends_bind.
Qed.

Lemma for_each_ext {A} (l : list A) (f g : A -> Gen unit) :
  (forall x, f x = g x) -> for_each l f = for_each l g.
Proof.
  intros H. induction l as [|x l IH]; simpl; [reflexivity |].
  rewrite IH, H. reflexivity.
Qed.

(** Rendering for the local script returns when every step is a run step,
    and raises as soon as one is an action step. *)
Lemma format_local_all_run (steps : list Step) :
  forallb is_run_step steps = true ->
  format_local_all steps = Return (map local_text steps).
Proof.
  induction steps as [|s steps IH]; simpl; [reflexivity |].
  intros H. apply andb_prop in H as [Hs Hrest].
  destruct s; [| discriminate]. rewrite (IH Hrest). reflexivity.
Qed.

Lemma format_local_all_action (steps : list Step) :
  forallb is_run_step steps = false ->
  format_local_all steps = Raise not_implemented.
Proof.
  induction steps as [|s steps IH]; simpl; [discriminate |].
  destruct s; simpl; [| reflexivity].
  intros H. rewrite (IH H). reflexivity.
Qed.

Lemma write_steps_ci (steps : list Step) :
  appends (write_steps steps false) (join nl (map step_str steps)).
Proof. apply appends_write. Qed.

Lemma write_steps_local (steps : list Step) :
  forallb is_run_step steps = true ->
  appends (write_steps steps true) (join "" (map local_text steps)).
Proof.
  intros H out. unfold write_steps, bind, lift.
  rewrite (format_local_all_run _ H). reflexivity.
Qed.

Lemma write_steps_local_raises (steps : list Step) (out : TextIO) :
  forallb is_run_step steps = false ->
  write_steps steps true out = (Raise not_implemented, out).
Proof.
  intros H. unfold write_steps, bind, lift.
  rewrite (format_local_all_action _ H). reflexivity.
Qed.

(** In local mode the step builder makes run steps only. *)
Lemma component_steps_local_run (binfo : BenchmarkInfo) (variant : Variant)
  (n e : string) (stats : bool) (c : BenchmarkComponent) :
  forallb is_run_step (component_steps binfo variant n e stats true c) = true.
Proof. unfold component_steps, stats_steps. destruct stats; reflexivity. Qed.

Lemma forallb_flat_map {A B} (p : B -> bool) (f : A -> list B) (l : list A) :
  (forall x, forallb p (f x) = true) -> forallb p (flat_map f l) = true.
Proof.
  intros H. induction l as [|x l IH]; simpl; [reflexivity |].
  rewrite forallb_app, H, IH. reflexivity.
Qed.

Lemma job_steps_local_run (binfo : BenchmarkInfo) (variant : Variant)
  (n e : string) (stats : bool) :
  forallb is_run_step (job_steps binfo variant n e stats true) = true.
Proof.
  rewrite job_steps_closed. cbn [forallb build_step is_run_step andb].
  rewrite forallb_app, forallb_flat_map.
  - destruct (defer_failure binfo); reflexivity.
  - intros c. apply component_steps_local_run.
Qed.

(** [generate_benchmark_job] in one equation: nothing when a filter stops
    the job, else the header and the rendered steps. *)
Lemma generate_benchmark_job_unfold (args : Args) (binfo : BenchmarkInfo)
  (m : bool) (V : Variant) (stats locally : bool) :
  generate_benchmark_job args binfo m V stats locally
  = if job_selected args binfo m V
    then write (job_header binfo (Spec.identifier V m) (Spec.label V m) locally) ;;;
         write_steps (job_steps binfo V (Spec.identifier V m)
                                (Spec.tool_arguments V m) stats locally) locally
    else ret tt.
Proof.
  unfold generate_benchmark_job, job_selected.
  destruct (is_allowed binfo V); cbn [negb andb]; [| reflexivity].
  rewrite <- negb_orb.
  destruct (_ || _); cbn [negb]; [| reflexivity].
  fold (subvariant_name m V). fold (subvariant_convert_extra m V).
  rewrite subvariant_name_closed, subvariant_convert_extra_closed.
  reflexivity.
Qed.

Lemma generate_benchmark_job_appends (args : Args) (binfo : BenchmarkInfo)
  (m : bool) (V : Variant) (stats locally : bool) :
  appends (generate_benchmark_job args binfo m V stats locally)
          (if job_selected args binfo m V
           then job_text binfo m V stats locally else "").
Proof.
  rewrite generate_benchmark_job_unfold.
  destruct (job_selected args binfo m V); [| apply appends_ret].
  unfold job_text. apply appends_bind; [apply appends_write |].
  destruct locally.
  - apply write_steps_local, job_steps_local_run.
  - apply write_steps_ci.
Qed.

Lemma generate_benchmark_jobs_appends (benchmarks : list BenchmarkInfo)
  (args : Args) (config : WorkflowConfig) (locally : bool) :
  exists text, appends (generate_benchmark_jobs benchmarks args config locally) text.
Proof.
  unfold generate_benchmark_jobs. apply appends_for_each. intros binfo.
  destruct (_ && _); [exists ""; apply appends_ret |].
  apply appends_for_each. intros m. apply appends_for_each. intros V.
  eexists. apply generate_benchmark_job_appends.
Qed.

End Appends.

(* ===================================================================== *)
(** ** Subvariant naming *)
(* ===================================================================== *)

(** C1. The subvariant identifier is the macro and alltypes parts followed,
    for each extra argument in order, by an underscore and the argument with
    its leading dashes stripped and the other dashes turned into
    underscores; the label is the macro and alltypes wording followed by the
    variant's suffix. A job that is not filtered out is written under that
    identifier and label. The greatest-solution variant without macro
    expansion gets [no_expand_macros_alltypes_only_g_sol] and
    [not macro-expanded, -alltypes, greatest solution]. *)
Theorem subvariant_identifier_and_label (V : Variant) (m : bool) :
  subvariant_name m V = Spec.identifier V m
  /\ subvariant_friendly m V = Spec.label V m
  /\ (forall args binfo stats locally,
        generate_benchmark_job args binfo m V stats locally
        = if job_selected args binfo m V
          then write (job_header binfo (Spec.identifier V m) (Spec.label V m)
                                 locally) ;;;
               write_steps (job_steps binfo V (Spec.identifier V m)
                                      (Spec.tool_arguments V m) stats locally)
                           locally
          else ret tt)
  /\ (forall comparative,
        let G := mkVariant true ["-only-g-sol"] ", greatest solution" comparative in
        subvariant_name false G = "no_expand_macros_alltypes_only_g_sol"
        /\ subvariant_friendly false G
           = "not macro-expanded, -alltypes, greatest solution").
Proof.
  split; [apply subvariant_name_closed |].
  split; [reflexivity |].
  split; [intros; apply generate_benchmark_job_unfold |].
  intros comparative G. split; reflexivity.
Qed.

Ltac strip_prefix H p := apply (append_inv_head p) in H.

(** C4, as the code has it. Two inputs get the same identifier exactly when
    they agree on the alltypes flag, on the macro flag, and on the suffix
    their extra arguments normalise to; extra-argument lists that differ only
    in what the normalisation erases collide. *)
Theorem identifier_determines_flags_and_suffix (V1 V2 : Variant) (m1 m2 : bool) :
  subvariant_name m1 V1 = subvariant_name m2 V2
  <-> (alltypes V1 = alltypes V2 /\ m1 = m2 /\
       Spec.name_suffix (extra_3c_args V1) = Spec.name_suffix (extra_3c_args V2)).
Proof.
  rewrite !subvariant_name_closed. unfold Spec.identifier.
  split.
  - destruct m1, m2, (alltypes V1), (alltypes V2); intros H;
      try discriminate H; repeat split.
    + strip_prefix H "expand_macros_alltypes". exact H.
    + strip_prefix H "expand_macros_no_alltypes". exact H.
    + strip_prefix H "no_expand_macros_alltypes". exact H.
    + strip_prefix H "no_expand_macros_no_alltypes". exact H.
  - intros [Ha [Hm Hs]]. now rewrite Ha, Hm, Hs.
Qed.

(** C4 as stated fails: one more leading dash is a different input with the
    same identifier. *)
Lemma identifier_collision :
  exists V1 m1 V2 m2,
    (alltypes V1, m1, extra_3c_args V1) <> (alltypes V2, m2, extra_3c_args V2)
    /\ subvariant_name m1 V1 = subvariant_name m2 V2.
Proof.
  exists (mkVariant true ["-only-g-sol"] "" false), false,
         (mkVariant true ["--only-g-sol"] "" false), false.
  split; [discriminate | reflexivity].
Qed.

(** C3 at the failing inputs. The filter is tested on the name before the
    extra-argument suffixes are added: with the filter
    [no_expand_macros_alltypes] the greatest-solution job is written although
    its identifier is not in the list, and with the filter set to its
    identifier nothing is written. *)
Lemma subvariant_filter_tests_base_name :
  let by_base := mkArgs true [] ["no_expand_macros_alltypes"] "" "" "" "" "" false "" in
  let by_name := mkArgs true [] ["no_expand_macros_alltypes_only_g_sol"]
                        "" "" "" "" "" false "" in
  subvariant_name false greatest_solution = "no_expand_macros_alltypes_only_g_sol"
  /\ str_in (subvariant_name false greatest_solution) (subvariants by_base) = false
  /\ (exists rest,
        generate_benchmark_job by_base vsftpd false greatest_solution false true ""
        = (Return tt,
           nl ++ "# Test Vsftpd (not macro-expanded, -alltypes, greatest solution)"
              ++ nl ++ rest))
  /\ str_in (subvariant_name false greatest_solution) (subvariants by_name) = true
  /\ generate_benchmark_job by_name vsftpd false greatest_solution false true ""
     = (Return tt, "").
Proof.
  intros by_base by_name.
  split; [reflexivity |]. split; [reflexivity |].
  split; [| split; reflexivity].
  eexists. vm_compute. reflexivity.
Qed.

(* ===================================================================== *)
(** ** Step sequencing *)
(* ===================================================================== *)

Section Sequencing.

Lemma component_count_length (binfo : BenchmarkInfo) :
  List.length (components_of binfo) = component_count binfo.
Proof. unfold components_of, component_count. destruct (components binfo); reflexivity. Qed.

Lemma count_kind_app (k : Spec.StepKind) (l1 l2 : list Spec.StepKind) :
  count_kind k (l1 ++ l2)%list = (count_kind k l1 + count_kind k l2)%nat.
Proof. unfold count_kind. now rewrite filter_app, length_app. Qed.

Lemma count_kind_concat_repeat (k : Spec.StepKind) (l : list Spec.StepKind) (N : nat) :
  count_kind k (List.concat (repeat l N)) = (N * count_kind k l)%nat.
Proof.
  induction N as [|N IH]; simpl; [reflexivity |].
  rewrite count_kind_app, IH. reflexivity.
Qed.

Lemma count_kind_repeat_stats (k : Spec.StepKind) (n : nat) :
  count_kind k (repeat Spec.KStats n) = if kind_eqb k Spec.KStats then n else 0%nat.
Proof.
  unfold count_kind. induction n as [|n IH]; simpl.
  - destruct (kind_eqb k Spec.KStats); reflexivity.
  - destruct (kind_eqb k Spec.KStats); simpl; [now rewrite IH | exact IH].
Qed.

Variables (binfo : BenchmarkInfo) (variant : Variant).
Variables (sv_name sv_convert_extra : string) (stats locally : bool).

Lemma component_steps_untag (c : BenchmarkComponent) :
  map snd (component_steps_tagged binfo variant sv_name sv_convert_extra stats locally c)
  = component_steps binfo variant sv_name sv_convert_extra stats locally c.
Proof.
  unfold component_steps_tagged, component_steps.
  rewrite !map_app, map_map. cbn [map snd]. now rewrite map_id.
Qed.

Lemma component_steps_kinds (c : BenchmarkComponent) :
  map fst (component_steps_tagged binfo variant sv_name sv_convert_extra stats locally c)
  = ([Spec.KConvert] ++ repeat Spec.KStats (stats_step_count stats locally)
     ++ [Spec.KBuildConverted])%list.
Proof.
  unfold component_steps_tagged, stats_steps, stats_step_count.
  destruct stats, locally; reflexivity.
Qed.

Lemma job_steps_untag :
  map snd (job_steps_tagged binfo variant sv_name sv_convert_extra stats locally)
  = job_steps binfo variant sv_name sv_convert_extra stats locally.
Proof.
  rewrite job_steps_closed. unfold job_steps_tagged.
  cbn [map snd]. f_equal. rewrite map_app. f_equal.
  - induction (components_of binfo) as [|c cs IH]; [reflexivity |].
    cbn [flat_map]. rewrite map_app, IH, component_steps_untag. reflexivity.
  - destruct (defer_failure binfo); reflexivity.
Qed.

Lemma job_steps_kinds :
  map fst (job_steps_tagged binfo variant sv_name sv_convert_extra stats locally)
  = step_kinds_by_mode (component_count binfo) stats locally.
Proof.
  unfold job_steps_tagged, step_kinds_by_mode, defer_failure.
  rewrite <- component_count_length.
  cbn [map fst app]. f_equal. rewrite map_app. f_equal.
  - induction (components_of binfo) as [|c cs IH]; [reflexivity |].
    cbn [flat_map List.length repeat List.concat].
    rewrite map_app, IH, component_steps_kinds. reflexivity.
  - destruct (1 <? _)%nat; reflexivity.
Qed.

Lemma step_kinds_by_mode_counts (N : nat) :
  let ks := step_kinds_by_mode N stats locally in
  count_kind Spec.KBuild ks = 1%nat
  /\ count_kind Spec.KConvert ks = N
  /\ count_kind Spec.KStats ks = (N * stats_step_count stats locally)%nat
  /\ count_kind Spec.KBuildConverted ks = N
  /\ count_kind Spec.KCheck ks = (if (1 <? N)%nat then 1 else 0)%nat.
Proof.
  unfold step_kinds_by_mode.
  repeat split;
    rewrite !count_kind_app, count_kind_concat_repeat, !count_kind_app,
            count_kind_repeat_stats;
    destruct (1 <? N)%nat; cbn; lia.
Qed.

End Sequencing.

(** C2, as the code has it. The steps of one subvariant are: the build
    step; for each component in declared order its conversion step, the
    stats steps, and its build-converted step; and the aggregate check
    exactly when there is more than one component. The stats steps are none
    without stats, one zip step in local mode, and the copy step followed by
    the upload action in CI mode. By kind there are one build step, [N]
    conversion steps, [N] build-converted steps, and one check step when
    [N > 1], none otherwise. *)
Theorem step_sequence (binfo : BenchmarkInfo) (variant : Variant)
  (sv_name sv_convert_extra : string) (stats locally : bool) :
  let N := component_count binfo in
  let steps := job_steps binfo variant sv_name sv_convert_extra stats locally in
  let tagged := job_steps_tagged binfo variant sv_name sv_convert_extra stats locally in
  steps
  = (build_step binfo sv_name ::
     flat_map (fun c =>
                 [convert_step binfo sv_name sv_convert_extra c] ++
                 stats_steps binfo sv_name stats locally c ++
                 [build_converted_step binfo variant sv_name c])
              (components_of binfo)
     ++ (if (1 <? N)%nat then [check_deferred_step binfo sv_name] else []))%list
  /\ List.length (components_of binfo) = N
  /\ map snd tagged = steps
  /\ map fst tagged = step_kinds_by_mode N stats locally
  /\ count_kind Spec.KBuild (map fst tagged) = 1%nat
  /\ count_kind Spec.KConvert (map fst tagged) = N
  /\ count_kind Spec.KStats (map fst tagged) = (N * stats_step_count stats locally)%nat
  /\ count_kind Spec.KBuildConverted (map fst tagged) = N
  /\ count_kind Spec.KCheck (map fst tagged) = (if (1 <? N)%nat then 1 else 0)%nat
  /\ List.length steps
     = (1 + N * (2 + stats_step_count stats locally)
        + (if (1 <? N)%nat then 1 else 0))%nat.
Proof.
  intros N steps tagged. subst N steps tagged.
  split.
  { rewrite job_steps_closed. unfold defer_failure.
    rewrite component_count_length. reflexivity. }
  split; [apply component_count_length |].
  split; [apply job_steps_untag |].
  split; [apply job_steps_kinds |].
  rewrite job_steps_kinds.
  pose proof (step_kinds_by_mode_counts stats locally (component_count binfo)) as H.
  cbv zeta in H. destruct H as (H1 & H2 & H3 & H4 & H5).
  repeat (split; [assumption |]).
  rewrite job_steps_length. unfold defer_failure.
  rewrite component_count_length. reflexivity.
Qed.

(** C2 as stated fails in CI mode with stats: each component then has two
    stats steps, so no labelling of the steps gives the sequence with a
    single stats step per component. *)
Lemma ci_stats_stage_has_two_steps :
  ~ (exists kind : Step -> Spec.StepKind,
       map kind (job_steps vsftpd (mkVariant false [] "" false)
                           "no_expand_macros_no_alltypes" "" true false)
       = Spec.step_kinds (component_count vsftpd) true).
Proof.
  intros [kind H]. apply (f_equal (@List.length _)) in H.
  rewrite length_map, job_steps_length in H. vm_compute in H. discriminate H.
Qed.

(* ===================================================================== *)
(** ** Filters, rendering and determinism *)
(* ===================================================================== *)

Lemma job_text_nonempty (binfo : BenchmarkInfo) (m : bool) (V : Variant)
  (stats locally : bool) :
  nonempty (job_text binfo m V stats locally) = true.
Proof. unfold job_text, job_header. destruct locally; reflexivity. Qed.

Lemma unselected_job_writes_nothing (args : Args) (binfo : BenchmarkInfo)
  (m : bool) (V : Variant) (stats locally : bool) (out : TextIO) :
  job_selected args binfo m V = false ->
  generate_benchmark_job args binfo m V stats locally out = (Return tt, out).
Proof.
  intros H. rewrite generate_benchmark_job_unfold, H. reflexivity.
Qed.

(** C7. For a benchmark that disallows comparative variants, a comparative
    variant is not allowed and its job writes nothing, whatever the other
    arguments; a variant that is not comparative is allowed, and its job is
    written whenever the subvariant filter lets it through. *)
Theorem comparative_exclusion (binfo : BenchmarkInfo) (Vc Vn : Variant) :
  disallow_for_comparative_varients binfo = true ->
  is_comparative_varient Vc = true ->
  is_comparative_varient Vn = false ->
  (is_allowed binfo Vc = false
   /\ forall args m stats locally out,
        generate_benchmark_job args binfo m Vc stats locally out = (Return tt, out))
  /\ (is_allowed binfo Vn = true
      /\ forall args m stats locally out,
           subvariants args = [] \/
           In (subvariant_name_base m Vn) (subvariants args) ->
           exists text,
             nonempty text = true
             /\ generate_benchmark_job args binfo m Vn stats locally out
                = (Return tt, out ++ text)
             /\ generate_benchmark_job args binfo m Vn stats locally out
                <> (Return tt, out)).
Proof.
  intros Hd Hc Hn. unfold is_allowed. rewrite Hd, Hc, Hn. split.
  - split; [reflexivity |]. intros args m stats locally out.
    apply unselected_job_writes_nothing.
    unfold job_selected, is_allowed. now rewrite Hd, Hc.
  - split; [reflexivity |]. intros args m stats locally out Hf.
    assert (Hsel : job_selected args binfo m Vn = true).
    { unfold job_selected, is_allowed. rewrite Hd, Hn. cbn [negb orb andb].
      destruct Hf as [Hf | Hf]; [now rewrite Hf |].
      apply str_in_In in Hf. rewrite Hf. apply orb_true_r. }
    pose proof (generate_benchmark_job_appends args binfo m Vn stats locally out) as H.
    rewrite Hsel in H. exists (job_text binfo m Vn stats locally).
    split; [apply job_text_nonempty |]. split; [exact H |].
    rewrite H. intros E. injection E as E.
    now apply append_nonempty_neq in E; [| apply job_text_nonempty].
Qed.

Lemma comparative_exclusion_witness :
  let b := mkBenchmark "vsftpd" "Vsftpd" "vsftpd-3.0.3" "make" "make -k"
                       None None None true in
  let plain := mkVariant true [] "" false in
  disallow_for_comparative_varients b = true
  /\ is_comparative_varient greatest_solution = true
  /\ is_comparative_varient plain = false
  /\ generate_benchmark_job default_args b false greatest_solution true false ""
     = (Return tt, "")
  /\ exists text,
       nonempty text = true
       /\ generate_benchmark_job default_args b false plain true false ""
          = (Return tt, "" ++ text).
Proof.
  intros b plain.
  pose proof (comparative_exclusion b greatest_solution plain eq_refl eq_refl eq_refl)
    as [[_ Hc] [_ Hn]].
  do 3 (split; [reflexivity |]).
  split; [apply Hc |].
  destruct (Hn default_args false true false "" (or_introl eq_refl))
    as [text [Ht [Hw _]]].
  exists text. split; assumption.
Defined.

(** C9. An action step has no local rendering: [format_local] raises
    [NotImplementedError] whatever its name, action and arguments, and so
    does writing out any step list that holds one, before anything is
    written. In the CI form the same step renders, and writing it returns. *)
Theorem action_step_rendering (n a : string) (kv : list (string * ArgVal)) :
  format_local (ActionStep n a kv)
  = Raise (NotImplementedError "ActionStep currently isn't supported locally.")
  /\ (forall before after out,
        write_steps (before ++ ActionStep n a kv :: after)%list true out
        = (Raise (NotImplementedError "ActionStep currently isn't supported locally."),
           out))
  /\ (forall out,
        write_steps [ActionStep n a kv] false out
        = (Return tt, out ++ step_str (ActionStep n a kv))).
Proof.
  split; [reflexivity |]. split.
  - intros before after out. apply write_steps_local_raises.
    rewrite forallb_app. cbn [forallb is_run_step andb]. apply andb_false_r.
  - intros out. reflexivity.
Qed.

(** C10. In local mode the step builder produces run steps only; the stats
    step is the run step that zips the stats files. So a job in local mode
    never raises: it returns, having appended its text, and so does the
    whole pass over the benchmarks. *)
Theorem local_steps_are_run_steps (binfo : BenchmarkInfo) (V : Variant)
  (sv_name sv_convert_extra : string) (stats : bool) :
  forallb is_run_step (job_steps binfo V sv_name sv_convert_extra stats true) = true
  /\ (forall c,
        stats_steps binfo sv_name true true c = [save_stats_step binfo sv_name c]
        /\ is_run_step (save_stats_step binfo sv_name c) = true)
  /\ (forall out,
        exists texts,
          format_local_all (job_steps binfo V sv_name sv_convert_extra stats true)
          = Return texts
          /\ write_steps (job_steps binfo V sv_name sv_convert_extra stats true)
                         true out
             = (Return tt, out ++ join "" texts))
  /\ (forall args m out,
        exists text,
          generate_benchmark_job args binfo m V stats true out
          = (Return tt, out ++ text))
  /\ (forall benchmarks args config out,
        exists text,
          generate_benchmark_jobs benchmarks args config true out
          = (Return tt, out ++ text)).
Proof.
  pose proof (job_steps_local_run binfo V sv_name sv_convert_extra stats) as Hrun.
  split; [exact Hrun |].
  split; [intros c; split; reflexivity |].
  split.
  { intros out. eexists. split; [apply format_local_all_run, Hrun |].
    apply write_steps_local, Hrun. }
  split.
  - intros args m out. eexists. apply generate_benchmark_job_appends.
  - intros benchmarks args config out.
    destruct (generate_benchmark_jobs_appends benchmarks args config true) as [t Ht].
    exists t. apply Ht.
Qed.

Lemma generate_benchmark_job_filter_only (args1 args2 : Args)
  (binfo : BenchmarkInfo) (m : bool) (V : Variant) (stats locally : bool) :
  subvariants args1 = subvariants args2 ->
  generate_benchmark_job args1 binfo m V stats locally
  = generate_benchmark_job args2 binfo m V stats locally.
Proof.
  intros H. rewrite !generate_benchmark_job_unfold. unfold job_selected.
  now rewrite H.
Qed.

Lemma generate_benchmark_jobs_filters_only (benchmarks : list BenchmarkInfo)
  (args1 args2 : Args) (config : WorkflowConfig) (locally : bool) :
  benchmarks_filter args1 = benchmarks_filter args2 ->
  subvariants args1 = subvariants args2 ->
  generate_benchmark_jobs benchmarks args1 config locally
  = generate_benchmark_jobs benchmarks args2 config locally.
Proof.
  intros Hb Hs. unfold generate_benchmark_jobs. apply for_each_ext. intros binfo.
  rewrite Hb. destruct (_ && _); [reflexivity |].
  apply for_each_ext. intros m. apply for_each_ext. intros V.
  now apply generate_benchmark_job_filter_only.
Qed.

(** C6, as the code has it. With the same table and the same two filters,
    two runs append the same text for every configuration, and neither
    raises. The text of one job depends on the command line only through the
    filter test; the kinds of its steps, in order, and their number are fixed
    by the component count, the stats flag and the rendering mode. For the
    generator as a whole: two runs hand the same text to the open and write
    of a workflow file, whatever the file system and the rest of the command
    line; two runs in local mode hand over the same script up to the
    replacement of the placeholders, which is where the resolved paths come
    in, and write it to the output path each one was given. *)
Theorem generation_deterministic (benchmarks : list BenchmarkInfo)
  (HEADER : string) (args1 args2 : Args) (config : WorkflowConfig)
  (locally : bool) :
  benchmarks_filter args1 = benchmarks_filter args2 ->
  subvariants args1 = subvariants args2 ->
  (exists text, forall out1 out2,
      generate_benchmark_jobs benchmarks args1 config locally out1
      = (Return tt, out1 ++ text)
      /\ generate_benchmark_jobs benchmarks args2 config locally out2
         = (Return tt, out2 ++ text))
  /\ (forall binfo m V stats,
        exists text, forall out1 out2,
          generate_benchmark_job args1 binfo m V stats locally out1
          = (Return tt, out1 ++ (if job_selected args1 binfo m V then text else ""))
          /\ generate_benchmark_job args2 binfo m V stats locally out2
             = (Return tt, out2 ++ (if job_selected args1 binfo m V then text else "")))
  /\ (forall binfo V sv_name sv_convert_extra stats,
        List.length (job_steps binfo V sv_name sv_convert_extra stats locally)
        = (1 + component_count binfo * (2 + stats_step_count stats locally)
           + (if (1 <? component_count binfo)%nat then 1 else 0))%nat)
  /\ (forall binfo V sv_name sv_convert_extra stats,
        map snd (job_steps_tagged binfo V sv_name sv_convert_extra stats locally)
        = job_steps binfo V sv_name sv_convert_extra stats locally
        /\ map fst (job_steps_tagged binfo V sv_name sv_convert_extra stats locally)
           = step_kinds_by_mode (component_count binfo) stats locally)
  /\ (exists content,
        forall open1 write1 fs1 open2 write2 fs2,
          generate_github_workflow benchmarks HEADER open1 write1 args1 config fs1
          = save_text open1 write1 fs1 (workflow_path config) default_file_mode
                      content
          /\ generate_github_workflow benchmarks HEADER open2 write2 args2 config fs2
             = save_text open2 write2 fs2 (workflow_path config) default_file_mode
                         content)
  /\ (exists text,
        forall abspath1 dir1 open1 write1 paths1 fs1
               abspath2 dir2 open2 write2 paths2 fs2,
          generate_local_script benchmarks abspath1 dir1 open1 write1
                                args1 paths1 config fs1
          = save_text open1 write1 fs1 (out_fname args1) executable_file_mode
              (resolve_placeholders (env_replacements abspath1 dir1 args1 paths1)
                                    text)
          /\ generate_local_script benchmarks abspath2 dir2 open2 write2
                                   args2 paths2 config fs2
             = save_text open2 write2 fs2 (out_fname args2) executable_file_mode
                 (resolve_placeholders (env_replacements abspath2 dir2 args2 paths2)
                                       text)).
Proof.
  intros Hb Hs. split; [| split; [| split; [| split; [| split]]]].
  - destruct (generate_benchmark_jobs_appends benchmarks args1 config locally)
      as [t Ht].
    exists t. intros out1 out2.
    rewrite <- (generate_benchmark_jobs_filters_only benchmarks args1 args2) by assumption.
    split; apply Ht.
  - intros binfo m V stats. exists (job_text binfo m V stats locally).
    intros out1 out2.
    rewrite <- (generate_benchmark_job_filter_only args1 args2) by assumption.
    split; apply generate_benchmark_job_appends.
  - intros binfo V sv_name sv_convert_extra stats.
    rewrite job_steps_length. unfold defer_failure.
    rewrite component_count_length. reflexivity.
  - intros binfo V sv_name sv_convert_extra stats.
    split; [apply job_steps_untag | apply job_steps_kinds].
  - destruct (generate_benchmark_jobs_appends benchmarks args1 config false)
      as [t Ht].
    unfold appends in Ht.
    exists (formatted_header HEADER config ++ t).
    assert (G : forall args os_open os_write_close fs,
               generate_benchmark_jobs benchmarks args config false
               = generate_benchmark_jobs benchmarks args1 config false ->
               generate_github_workflow benchmarks HEADER os_open os_write_close
                                        args config fs
               = save_text os_open os_write_close fs (workflow_path config)
                           default_file_mode (formatted_header HEADER config ++ t)).
    { intros args os_open os_write_close fs E.
      unfold generate_github_workflow, save_text, workflow_path, bind, write.
      destruct (os_open fs _ default_file_mode) as [[u | e] fs']; [| reflexivity].
      cbn [append]. rewrite E, Ht. cbn [fst snd]. unfold formatted_header.
      destruct (os_write_close fs' _ _) as [[[] | e] fs'']; reflexivity. }
    intros open1 write1 fs1 open2 write2 fs2. split; apply G; [reflexivity |].
    symmetry. now apply generate_benchmark_jobs_filters_only.
  - destruct (generate_benchmark_jobs_appends benchmarks args1 config true)
      as [t Ht].
    unfold appends in Ht.
    exists (local_script_header config ++ t).
    assert (G : forall args abspath dir os_open os_write_close paths fs,
               generate_benchmark_jobs benchmarks args config true
               = generate_benchmark_jobs benchmarks args1 config true ->
               generate_local_script benchmarks abspath dir os_open os_write_close
                                     args paths config fs
               = save_text os_open os_write_close fs (out_fname args)
                   executable_file_mode
                   (resolve_placeholders (env_replacements abspath dir args paths)
                                         (local_script_header config ++ t))).
    { intros args abspath dir os_open os_write_close paths fs E.
      unfold generate_local_script, bind, write. cbn [append]. rewrite E, Ht.
      reflexivity. }
    intros. split; apply G; [reflexivity |].
    symmetry. now apply generate_benchmark_jobs_filters_only.
Qed.

Lemma generation_deterministic_witness :
  let args2 := mkArgs false [] [] "out.sh" "/src" "/build" "/bench" "/work" true "main" in
  benchmarks_filter default_args = benchmarks_filter args2
  /\ subvariants default_args = subvariants args2
  /\ exists text, forall out1 out2,
       generate_benchmark_jobs [vsftpd; zlib] default_args
         (mkConfig "main" "3C benchmark tests"
                   [mkVariant false [] "" false; mkVariant true [] "" false]
                   (Some "0 5 * * *") false) false out1
       = (Return tt, out1 ++ text)
       /\ generate_benchmark_jobs [vsftpd; zlib] args2
            (mkConfig "main" "3C benchmark tests"
                      [mkVariant false [] "" false; mkVariant true [] "" false]
                      (Some "0 5 * * *") false) false out2
          = (Return tt, out2 ++ text).
Proof.
  intros args2. split; [reflexivity |]. split; [reflexivity |].
  exact (proj1 (generation_deterministic [vsftpd; zlib] "" default_args args2
                  (mkConfig "main" "3C benchmark tests"
                            [mkVariant false [] "" false; mkVariant true [] "" false]
                            (Some "0 5 * * *") false)
                  false eq_refl eq_refl)).
Defined.

(** C6 as stated fails: with the same benchmark, subvariant, stats flag and
    component count, the local job has four steps and the CI job five. *)
Lemma step_count_depends_on_mode :
  let V := mkVariant false [] "" false in
  List.length (job_steps vsftpd V (subvariant_name false V)
                         (subvariant_convert_extra false V) true true)
  <> List.length (job_steps vsftpd V (subvariant_name false V)
                            (subvariant_convert_extra false V) true false).
Proof. intros V. rewrite !job_steps_length. vm_compute. discriminate. Qed.

(* ===================================================================== *)
(** ** [dedent] on the templates *)
(* ===================================================================== *)

Section Dedent.

Lemma no_lf_append (a b : string) : no_lf (a ++ b) = no_lf a && no_lf b.
Proof.
  induction a as [|c a IH]; simpl; [reflexivity |].
  rewrite IH. now rewrite andb_assoc.
Qed.

Lemma no_lf_spaces (n : nat) : no_lf (spaces n) = true.
Proof. induction n as [|n IH]; [reflexivity | exact IH]. Qed.

Lemma split_nl_no_lf (a : string) : no_lf a = true -> split_nl a = [a].
Proof.
  induction a as [|c a IH]; [reflexivity |].
  cbn [no_lf split_nl]. intros H. apply andb_prop in H as [Hc Ha].
  apply negb_true_iff in Hc. rewrite Hc, (IH Ha). reflexivity.
Qed.

Lemma split_nl_line (a rest : string) :
  no_lf a = true -> split_nl (a ++ nl ++ rest) = a :: split_nl rest.
Proof.
  induction a as [|c a IH]; [reflexivity |].
  cbn [no_lf]. intros H. apply andb_prop in H as [Hc Ha].
  apply negb_true_iff in Hc.
  change (String c a ++ nl ++ rest) with (String c (a ++ nl ++ rest)).
  cbn [split_nl]. rewrite Hc, (IH Ha). reflexivity.
Qed.

Lemma all_blank_spaces (n : nat) : all_blank (spaces n) = true.
Proof. induction n as [|n IH]; [reflexivity | exact IH]. Qed.

Lemma all_blank_spaces_append (n : nat) (l : string) :
  all_blank (spaces n ++ l) = all_blank l.
Proof. induction n as [|n IH]; [reflexivity | exact IH]. Qed.

Lemma leading_ws_spaces_append (n : nat) (l : string) :
  match l with "" => false | String c _ => negb (is_blank_char c) end = true ->
  leading_ws (spaces n ++ l) = spaces n.
Proof.
  intros H. induction n as [|n IH].
  - destruct l as [|c l]; [discriminate |]. simpl in *.
    apply negb_true_iff in H. now rewrite H.
  - cbn [spaces append leading_ws].
    change (is_blank_char SP) with true. cbn iota. now rewrite IH.
Qed.

Lemma startswith_spaces_append (n : nat) (l : string) :
  startswith (spaces n ++ l) (spaces n) = true.
Proof.
  unfold startswith. induction n as [|n IH].
  - destruct l; reflexivity.
  - cbn [spaces append String.prefix].
    destruct (ascii_dec SP SP) as [_|E]; [exact IH | congruence].
Qed.

Lemma drop_spaces_append (n : nat) (l : string) :
  drop (String.length (spaces n)) (spaces n ++ l) = l.
Proof. induction n as [|n IH]; [reflexivity | exact IH]. Qed.

Lemma strip_margin_spaces (n : nat) (l : string) :
  strip_margin (spaces n) (spaces n ++ l) = l.
Proof.
  unfold strip_margin. now rewrite startswith_spaces_append, drop_spaces_append.
Qed.

Lemma template_line_parts (l : string) :
  template_line l = true ->
  no_lf l = true /\ all_blank l = false
  /\ match l with "" => false | String c _ => negb (is_blank_char c) end = true.
Proof.
  unfold template_line. intros H.
  apply andb_prop in H as [H H3]. apply andb_prop in H as [H1 H2].
  apply negb_true_iff in H2. auto.
Qed.

Variables (n k : nat).

Lemma split_nl_block (lines : list string) :
  forallb template_line lines = true ->
  split_nl (block n lines k)
  = (map (append (spaces n)) lines ++ [spaces k])%list.
Proof.
  induction lines as [|l lines IH]; cbn [forallb block map app].
  - intros _. apply split_nl_no_lf, no_lf_spaces.
  - intros H. apply andb_prop in H as [Hl Hrest].
    apply template_line_parts in Hl as (Hl & _ & _).
    rewrite <- (IH Hrest), <- append_assoc.
    apply split_nl_line. now rewrite no_lf_append, no_lf_spaces, Hl.
Qed.

Lemma blank_to_empty_block (lines : list string) :
  forallb template_line lines = true ->
  map blank_to_empty (map (append (spaces n)) lines ++ [spaces k])%list
  = (map (append (spaces n)) lines ++ [""])%list.
Proof.
  intros H. rewrite map_app. f_equal.
  - induction lines as [|l lines IH]; [reflexivity |].
    cbn [forallb] in H. apply andb_prop in H as [Hl Hrest].
    apply template_line_parts in Hl as (_ & Hl & _).
    cbn [map]. rewrite (IH Hrest). f_equal.
    unfold blank_to_empty. now rewrite all_blank_spaces_append, Hl.
  - cbn [map]. unfold blank_to_empty. now rewrite all_blank_spaces.
Qed.

Lemma indents_block (lines : list string) :
  forallb template_line lines = true ->
  indents (map (append (spaces n)) lines ++ [""])%list
  = map (fun _ => spaces n) lines.
Proof.
  unfold indents. intros H. rewrite filter_app. cbn [filter all_blank negb].
  rewrite app_nil_r.
  induction lines as [|l lines IH]; [reflexivity |].
  cbn [forallb] in H. apply andb_prop in H as [Hl Hrest].
  apply template_line_parts in Hl as (_ & Hb & Hc).
  cbn [map filter]. rewrite all_blank_spaces_append, Hb. cbn [negb map].
  rewrite (IH Hrest). f_equal. now apply leading_ws_spaces_append.
Qed.

Lemma margin_of_equal_indents {A} (m : string) (lines : list A) :
  fold_left margin_step (map (fun _ => m) lines) (Some m) = Some m.
Proof.
  induction lines as [|l lines IH]; [reflexivity |].
  cbn [map fold_left margin_step].
  assert (E : startswith m m = true).
  { unfold startswith. clear. induction m as [|c m IH]; [reflexivity |].
    cbn [String.prefix]. destruct (ascii_dec c c); [exact IH | congruence]. }
  rewrite E. exact IH.
Qed.

Lemma strip_margin_block (lines : list string) :
  map (strip_margin (spaces n)) (map (append (spaces n)) lines ++ [""])%list
  = (lines ++ [""])%list.
Proof.
  rewrite map_app, map_map. f_equal.
  - induction lines as [|l lines IH]; [reflexivity |].
    cbn [map]. now rewrite IH, strip_margin_spaces.
  - cbn [map]. unfold strip_margin. destruct n; reflexivity.
Qed.

Lemma join_nl_unlines (lines : list string) :
  join nl (lines ++ [""])%list = unlines lines.
Proof.
  unfold join. induction lines as [|l lines IH]; [reflexivity |].
  cbn [app unlines]. rewrite <- IH.
  destruct lines; reflexivity.
Qed.

(** [dedent] takes the margin off a block of template lines and drops the
    blanks before the closing quotes. *)
Lemma dedent_block (lines : list string) :
  forallb template_line lines = true ->
  dedent (block n lines k) = unlines lines.
Proof.
  intros H. unfold dedent.
  rewrite (split_nl_block _ H), (blank_to_empty_block _ H), (indents_block _ H).
  destruct lines as [|l lines].
  - reflexivity.
  - cbn [map fold_left margin_step]. rewrite margin_of_equal_indents.
    destruct (nonempty (spaces n)) eqn:E.
    + change ((spaces n ++ l) :: map (append (spaces n)) lines)
        with (map (append (spaces n)) (l :: lines)).
      rewrite strip_margin_block. apply join_nl_unlines.
    + destruct n; [| discriminate E].
      change ((spaces 0 ++ l) :: map (append (spaces 0)) lines)
        with (map (append (spaces 0)) (l :: lines)).
      replace (map (append (spaces 0)) (l :: lines)) with (l :: lines).
      * apply join_nl_unlines.
      * symmetry. apply map_id.
Qed.

End Dedent.

(* ===================================================================== *)
(** ** [indent] over texts made of whole lines *)
(* ===================================================================== *)

Section Indent.

Lemma splitlines_keepends_cons (c : ascii) (s : string) :
  splitlines_keepends (String c s) <> [].
Proof.
  cbn [splitlines_keepends].
  destruct (is_linebreak c && _); [discriminate |].
  destruct (splitlines_keepends s); discriminate.
Qed.

Lemma endswith_char_cons (c d : ascii) (s : string) (x : ascii) :
  endswith_char (String c (String d s)) x = endswith_char (String d s) x.
Proof. reflexivity. Qed.

Lemma splitlines_keepends_app (a b : string) :
  line_closed a = true ->
  splitlines_keepends (a ++ b)
  = (splitlines_keepends a ++ splitlines_keepends b)%list.
Proof.
  induction a as [|c a IH]; [reflexivity |].
  unfold line_closed. cbn [nonempty negb orb].
  destruct a as [|d a].
  - cbn [endswith_char]. intros Hc. apply Ascii.eqb_eq in Hc. subst c.
    reflexivity.
  - rewrite endswith_char_cons. intros Hd.
    assert (IH' : splitlines_keepends (String d a ++ b)
                  = (splitlines_keepends (String d a) ++ splitlines_keepends b)%list).
    { apply IH. unfold line_closed. cbn [nonempty negb orb]. exact Hd. }
    change (String c (String d a) ++ b) with (String c (String d a ++ b)).
    remember (String d a) as a' eqn:Ea.
    assert (Hhead : match a' ++ b with
                    | String x _ => Ascii.eqb x LF
                    | "" => false
                    end
                    = match a' with
                      | String x _ => Ascii.eqb x LF
                      | "" => false
                      end) by (subst a'; reflexivity).
    assert (Hne : splitlines_keepends a' <> [])
      by (subst a'; apply splitlines_keepends_cons).
    cbn [splitlines_keepends]. rewrite IH', Hhead.
    destruct (is_linebreak c && _); [reflexivity |].
    destruct (splitlines_keepends a') as [|l ls]; [contradiction | reflexivity].
Qed.

Lemma indent_app (a b p : string) :
  line_closed a = true -> indent (a ++ b) p = indent a p ++ indent b p.
Proof.
  intros H. unfold indent.
  now rewrite (splitlines_keepends_app _ _ H), map_app, join_empty_app.
Qed.

Lemma endswith_char_append (a b : string) (x : ascii) :
  nonempty b = true -> endswith_char (a ++ b) x = endswith_char b x.
Proof.
  intros Hb. induction a as [|c a IH]; [reflexivity |].
  change (String c a ++ b) with (String c (a ++ b)).
  destruct (a ++ b) as [|d t] eqn:E.
  - destruct a; [destruct b; discriminate | discriminate].
  - rewrite endswith_char_cons. exact IH.
Qed.

Lemma line_closed_app (a b : string) :
  line_closed a = true -> line_closed b = true -> line_closed (a ++ b) = true.
Proof.
  intros Ha Hb. destruct b as [|c b]; [now rewrite append_nil_r |].
  unfold line_closed in *. cbn [nonempty negb orb] in Hb.
  rewrite endswith_char_append by reflexivity. rewrite Hb. apply orb_true_r.
Qed.

Lemma line_closed_nl (a : string) : line_closed (a ++ nl) = true.
Proof.
  unfold line_closed. rewrite endswith_char_append by reflexivity.
  apply orb_true_r.
Qed.

Lemma line_closed_ensure (s : string) :
  line_closed (ensure_trailing_newline s) = true.
Proof.
  unfold ensure_trailing_newline.
  destruct (nonempty s) eqn:Hn; cbn [andb].
  - destruct (endswith_char s LF) eqn:He; cbn [negb].
    + unfold line_closed. rewrite He. apply orb_true_r.
    + apply line_closed_nl.
  - unfold line_closed. now rewrite Hn.
Qed.

Lemma line_closed_benchmark_convert_extra (binfo : BenchmarkInfo) :
  line_closed (benchmark_convert_extra binfo) = true.
Proof.
  unfold benchmark_convert_extra.
  destruct (convert_extra binfo); [apply line_closed_ensure | reflexivity].
Qed.

Lemma line_closed_pass_through (l : list string) :
  line_closed (Spec.pass_through l) = true.
Proof.
  induction l as [|e l IH]; [reflexivity |].
  cbn [Spec.pass_through].
  replace ("--extra-3c-arg=" ++ e ++ " \" ++ nl ++ Spec.pass_through l)
    with ((("--extra-3c-arg=" ++ e ++ " \") ++ nl) ++ Spec.pass_through l)
    by (rewrite !append_assoc; reflexivity).
  apply line_closed_app; [apply line_closed_nl | exact IH].
Qed.

Lemma line_closed_tool_arguments (V : Variant) (m : bool) :
  line_closed (Spec.tool_arguments V m) = true.
Proof.
  unfold Spec.tool_arguments.
  apply line_closed_app; [destruct (alltypes V); reflexivity |].
  apply line_closed_app; [destruct m; reflexivity |].
  apply line_closed_pass_through.
Qed.

End Indent.

(* ===================================================================== *)
(** ** The conversion step *)
(* ===================================================================== *)

(** C5. The conversion step first changes into the component's directory,
    the benchmark directory followed by the component's subdirectory if it
    has one, and then calls the conversion tool with, in this order: the
    benchmark's extra-argument lines, [--prog_name] with the path of 3c, the
    subvariant's tool-argument fragment, [--project_path .], and
    [--build_dir] with the directory exactly when the component has a build
    directory. Every argument line is indented by two blanks. *)
Theorem convert_step_command (binfo : BenchmarkInfo) (m : bool) (V : Variant)
  (component : BenchmarkComponent) :
  let sv_name := subvariant_name m V in
  let cdir := component_dir binfo sv_name component in
  no_lf cdir = true ->
  cdir = benchmark_dir binfo sv_name ++
         match subdir component with Some d => "/" ++ d | None => "" end
  /\ convert_step binfo sv_name (subvariant_convert_extra m V) component
     = RunStep ("Convert " ++ component_friendly_name binfo component)
         ("cd " ++ cdir ++ nl ++
          "${{env.port_tools}}/convert_project.py \" ++ nl ++
          indent (benchmark_convert_extra binfo ++
                  "--prog_name ${{env.builddir}}/bin/3c \" ++ nl ++
                  Spec.tool_arguments V m ++
                  "--project_path ." ++
                  match build_dir component with
                  | Some d => " \" ++ nl ++ "--build_dir " ++ d
                  | None => ""
                  end ++
                  nl)
                 (spaces 2))
  /\ indent (benchmark_convert_extra binfo ++
             "--prog_name ${{env.builddir}}/bin/3c \" ++ nl ++
             Spec.tool_arguments V m ++
             "--project_path ." ++
             match build_dir component with
             | Some d => " \" ++ nl ++ "--build_dir " ++ d
             | None => ""
             end ++
             nl)
            (spaces 2)
     = indent (benchmark_convert_extra binfo) (spaces 2) ++
       "  --prog_name ${{env.builddir}}/bin/3c \" ++ nl ++
       indent (Spec.tool_arguments V m) (spaces 2) ++
       match build_dir component with
       | Some d => "  --project_path . \" ++ nl ++
                   indent ("--build_dir " ++ d ++ nl) (spaces 2)
       | None => "  --project_path ." ++ nl
       end.
Proof.
  intros sv_name cdir Hdir. split; [| split].
  - subst cdir. unfold component_dir.
    destruct (subdir component); [reflexivity | now rewrite append_nil_r].
  - unfold convert_step, convert_flags, build_dir_flag.
    rewrite subvariant_convert_extra_closed. fold cdir. f_equal.
    change (spaces 20 ++ "cd " ++ cdir ++ nl ++
            spaces 20 ++ "${{env.port_tools}}/convert_project.py \" ++ nl ++
            spaces 16)
      with (block 20 ["cd " ++ cdir; "${{env.port_tools}}/convert_project.py \"] 16).
    rewrite dedent_block.
    + cbn [unlines]. rewrite !append_assoc. reflexivity.
    + cbn [forallb]. unfold template_line at 1. cbn [no_lf append].
      change (no_lf (String "c" (String "d" (String " " cdir)))) with (no_lf cdir).
      rewrite Hdir. reflexivity.
  - rewrite indent_app by apply line_closed_benchmark_convert_extra.
    f_equal.
    etransitivity.
    { apply (indent_app ("--prog_name ${{env.builddir}}/bin/3c \" ++ nl) _ (spaces 2)).
      reflexivity. }
    rewrite (indent_app (Spec.tool_arguments V m))
      by apply line_closed_tool_arguments.
    change (indent ("--prog_name ${{env.builddir}}/bin/3c \" ++ nl) (spaces 2))
      with ("  --prog_name ${{env.builddir}}/bin/3c \" ++ nl).
    rewrite append_assoc. do 3 apply f_equal.
    destruct (build_dir component) as [d|]; [| reflexivity].
    replace ("--project_path ." ++ (" \" ++ nl ++ "--build_dir " ++ d) ++ nl)
      with (("--project_path . \" ++ nl) ++ "--build_dir " ++ d ++ nl)
      by (rewrite !append_assoc; reflexivity).
    rewrite indent_app by reflexivity. reflexivity.
Qed.

Lemma convert_step_command_witness :
  let c := mkComponent None None (Some "build") in
  let sv_name := subvariant_name true greatest_solution in
  no_lf (component_dir zlib sv_name c) = true
  /\ convert_step zlib sv_name (subvariant_convert_extra true greatest_solution) c
     = RunStep "Convert ZLib"
         ("cd ${{env.benchmark_conv_dir}}/expand_macros_alltypes_only_g_sol/zlib-1.2.11" ++ nl ++
          "${{env.port_tools}}/convert_project.py \" ++ nl ++
          "  --skip '/.*/test/.*' \" ++ nl ++
          "  --prog_name ${{env.builddir}}/bin/3c \" ++ nl ++
          "  --extra-3c-arg=-alltypes \" ++ nl ++
          "  --expand_macros_before_conversion \" ++ nl ++
          "  --extra-3c-arg=-only-g-sol \" ++ nl ++
          "  --project_path . \" ++ nl ++
          "  --build_dir build" ++ nl).
Proof.
  intros c sv_name. split; [reflexivity |].
  exact (proj1 (proj2 (convert_step_command zlib true greatest_solution c eq_refl))).
Defined.

(* ===================================================================== *)
(** ** Local mode: validation before writing *)
(* ===================================================================== *)

Section LocalMode.

Variable benchmarks : list BenchmarkInfo.
Variable HEADER : string.
Variable abspath : string -> string.
Variable script_dir : string.
Variable os_open : FileSystem -> string -> Z -> outcome unit * FileSystem.
Variable os_write_close : FileSystem -> string -> string -> outcome unit * FileSystem.

Lemma no_matching_config (wanted : string) :
  (forall c, In c workflow_file_configs -> filename c <> wanted) ->
  filter (fun c => String.eqb (filename c) wanted) workflow_file_configs = [].
Proof.
  intros H. induction workflow_file_configs as [|c cs IH]; [reflexivity |].
  cbn [filter].
  assert (E : String.eqb (filename c) wanted = false)
    by (apply String.eqb_neq, H; now left).
  rewrite E. apply IH. intros c' Hc'. apply H. now right.
Qed.

(** C8. In local mode, when the 3c binary, the port_tools directory or the
    benchmark directory does not exist, or no workflow configuration has the
    given name, the run ends in [sys.exit] with an error message and the file
    system is as it was: nothing is written, and an output script that did
    not exist still does not. *)
Theorem local_validation_precedes_writing (args : Args) (fs : FileSystem) :
  path_exists fs (abspath (_3c_build_dir args) ++ "/bin/3c") = false
  \/ path_exists fs (abspath (_3c_source_dir args) ++
                     "/clang/tools/3c/utils/port_tools") = false
  \/ path_exists fs (checkedc_benchmarks_dir args) = false
  \/ (forall c, In c workflow_file_configs -> filename c <> workflow_config args) ->
  exists msg,
    main_local benchmarks abspath script_dir os_open os_write_close args fs
    = (Raise (SystemExit ("Error: " ++ msg)), fs)
    /\ (run_locally args = true ->
          main benchmarks HEADER abspath script_dir os_open os_write_close args fs
          = (Raise (SystemExit ("Error: " ++ msg)), fs))
    /\ (path_exists fs (out_fname args) = false ->
          path_exists (snd (main_local benchmarks abspath script_dir os_open os_write_close args fs))
                      (out_fname args) = false).
Proof.
  intros H.
  assert (E : exists msg, main_local benchmarks abspath script_dir os_open os_write_close args fs
                          = (Raise (SystemExit ("Error: " ++ msg)), fs)).
  { unfold main_local, fatal_error.
    destruct (path_exists fs (abspath (_3c_build_dir args) ++ "/bin/3c")) eqn:E1;
      cbn [negb]; [| eexists; reflexivity].
    destruct (path_exists fs (abspath (_3c_source_dir args) ++
                              "/clang/tools/3c/utils/port_tools")) eqn:E2;
      cbn [negb]; [| eexists; reflexivity].
    destruct (path_exists fs (checkedc_benchmarks_dir args)) eqn:E3;
      cbn [negb]; [| eexists; reflexivity].
    destruct H as [H | [H | [H | H]]]; try discriminate H.
    rewrite (no_matching_config _ H). eexists; reflexivity. }
  destruct E as [msg E]. exists msg. split; [exact E |]. split.
  - intros Hl. unfold main. rewrite Hl. exact E.
  - intros Ha. rewrite E. exact Ha.
Qed.

(** When every check passes, the script is generated and handed to the one
    open and write of the output file. *)
Lemma main_local_writes_script (args : Args) (fs : FileSystem) (c : WorkflowConfig)
  (rest : list WorkflowConfig) :
  path_exists fs (abspath (_3c_build_dir args) ++ "/bin/3c") = true ->
  path_exists fs (abspath (_3c_source_dir args) ++
                  "/clang/tools/3c/utils/port_tools") = true ->
  path_exists fs (checkedc_benchmarks_dir args) = true ->
  filter (fun c => String.eqb (filename c) (workflow_config args))
         workflow_file_configs = c :: rest ->
  exists script,
    main_local benchmarks abspath script_dir os_open os_write_close args fs
    = save_text os_open os_write_close fs (out_fname args)
                executable_file_mode script.
Proof.
  intros E1 E2 E3 Hc. unfold main_local. rewrite E1, E2, E3, Hc. cbn [negb].
  unfold generate_local_script.
  destruct (generate_benchmark_jobs_appends benchmarks args c true) as [t Ht].
  unfold bind at 1, write at 1. rewrite Ht.
  eexists. reflexivity.
Qed.

End LocalMode.

Lemma local_validation_precedes_writing_witness :
  let args := mkArgs true [] [] "run.sh" "/src" "/build" "/nonexistent" "/work"
                     false "main" in
  let fs : FileSystem :=
    fun p => if String.eqb p "/build/bin/3c" then Some (File "")
             else if String.eqb p "/src/clang/tools/3c/utils/port_tools"
                  then Some Dir else None in
  (path_exists fs (_3c_build_dir args ++ "/bin/3c") = false
   \/ path_exists fs (_3c_source_dir args ++ "/clang/tools/3c/utils/port_tools") = false
   \/ path_exists fs (checkedc_benchmarks_dir args) = false
   \/ (forall c, In c workflow_file_configs -> filename c <> workflow_config args))
  /\ exists msg,
       main_local [vsftpd] (fun p => p) "/actions" readonly_open
                  readonly_write_close args fs
       = (Raise (SystemExit ("Error: " ++ msg)), fs)
       /\ path_exists (snd (main_local [vsftpd] (fun p => p) "/actions" readonly_open
                  readonly_write_close args fs))
                      "run.sh" = false.
Proof.
  intros args fs.
  assert (H : path_exists fs (_3c_build_dir args ++ "/bin/3c") = false
   \/ path_exists fs (_3c_source_dir args ++ "/clang/tools/3c/utils/port_tools") = false
   \/ path_exists fs (checkedc_benchmarks_dir args) = false
   \/ (forall c, In c workflow_file_configs -> filename c <> workflow_config args))
    by (right; right; left; reflexivity).
  split; [exact H |].
  destruct (local_validation_precedes_writing [vsftpd] "" (fun p => p) "/actions"
              readonly_open readonly_write_close args fs H) as [msg [E [_ Ha]]].
  exists msg. split; [exact E | apply Ha; reflexivity].
Defined.

(* ===================================================================== *)
(** ** Runs on entries of the table *)
(* ===================================================================== *)

Example dedent_two_lines :
  dedent ("    cd x" ++ nl ++ "      ls" ++ nl ++ "  ") = "cd x" ++ nl ++ "  ls" ++ nl.
Proof. reflexivity. Qed.

Example indent_skips_blank_lines :
  indent ("a" ++ nl ++ nl ++ " " ++ nl ++ "b") "  "
  = "  a" ++ nl ++ nl ++ " " ++ nl ++ "  b".
Proof. reflexivity. Qed.

Example replace_longer : replace "aa" "b" "aaaxaa" = "baxb".
Proof. reflexivity. Qed.

(** The first job of the [main] workflow. *)
Example vsftpd_first_job :
  generate_benchmark_job default_args vsftpd false (mkVariant false [] "" false)
                         false false ""
  = (Return tt,
     nl ++
     unlines
       [ "  test_vsftpd_no_expand_macros_no_alltypes:";
         "    name: Test Vsftpd (not macro-expanded, no -alltypes)";
         "    needs: build_3c";
         "    runs-on: self-hosted";
         "    steps:";
         "      - name: Build Vsftpd";
         "        run: |";
         "          mkdir -p ${{env.benchmark_conv_dir}}/no_expand_macros_no_alltypes";
         "          cd ${{env.benchmark_conv_dir}}/no_expand_macros_no_alltypes";
         "          rm -rf vsftpd-3.0.3";
         "          tar -xvzf ${{env.benchmark_tar_dir}}/vsftpd-3.0.3.tar.gz";
         "          cd vsftpd-3.0.3";
         "          bear " ++ vsftpd_make;
         "";
         "      - name: Convert Vsftpd";
         "        run: |";
         "          cd ${{env.benchmark_conv_dir}}/no_expand_macros_no_alltypes/vsftpd-3.0.3";
         "          ${{env.port_tools}}/convert_project.py \";
         "            --prog_name ${{env.builddir}}/bin/3c \";
         "            --project_path .";
         "";
         "      - name: Build converted Vsftpd";
         "        run: |";
         "          cd ${{env.benchmark_conv_dir}}/no_expand_macros_no_alltypes/vsftpd-3.0.3";
         "          if [ -e " ++ dq ++ "out.checked" ++ dq ++
           " ]; then cp -r out.checked/* . && rm -r out.checked; fi";
         "          " ++ vsftpd_make ++ " -k" ]).
Proof. vm_compute. reflexivity. Qed.

(** The upload step of a stats workflow, as a CI job entry. *)
Example upload_step_entry :
  step_str (upload_stats_step zlib "no_expand_macros_alltypes"
                              (mkComponent None None (Some "build")))
  = unlines
      [ "      - name: Upload 3c stats of ZLib";
        "        uses: actions/upload-artifact@v2";
        "        with:";
        "          name: ZLib_no_expand_macros_alltypes";
        "          path: ${{env.benchmark_conv_dir}}/no_expand_macros_alltypes/zlib-1.2.11/3c_performance_stats/";
        "          retention-days: 5" ].
Proof. vm_compute. reflexivity. Qed.

(** The stats step of the local script zips the four stats files. *)
Example save_stats_step_text :
  save_stats_step zlib "no_expand_macros_alltypes"
                  (mkComponent None None (Some "build"))
  = RunStep "Save 3c stats of ZLib"
      (unlines
         [ "cd ${{env.benchmark_conv_dir}}/no_expand_macros_alltypes/zlib-1.2.11";
           "mkdir -p ${{env.benchmark_conv_dir}}/stats";
           "rm -f ${{env.benchmark_conv_dir}}/stats/ZLib_no_expand_macros_alltypes.zip";
           "zip ${{env.benchmark_conv_dir}}/stats/ZLib_no_expand_macros_alltypes.zip PerWildPtrStats.json TotalConstraintStats.json.aggregate.json TotalConstraintStats.json WildPtrStats.json" ]).
Proof. vm_compute. reflexivity. Qed.

(** A benchmark of ten components: thirty-two steps with stats in local
    mode, forty-two in CI mode. *)
Example olden_step_counts :
  List.length (job_steps olden greatest_solution
                         (subvariant_name true greatest_solution)
                         (subvariant_convert_extra true greatest_solution)
                         true true) = 32%nat
  /\ List.length (job_steps olden greatest_solution
                            (subvariant_name true greatest_solution)
                            (subvariant_convert_extra true greatest_solution)
                            true false) = 42%nat.
Proof. rewrite !job_steps_length. split; reflexivity. Qed.

(** Over the variants of the configured workflows, inputs that differ get
    different identifiers. *)
Example configured_identifiers_distinct :
  let inputs := flat_map (fun c => flat_map (fun m => map (pair m) (variants c))
                                            [false; true])
                         workflow_file_configs in
  forallb (fun p =>
    forallb (fun q =>
      implb (String.eqb (subvariant_name (fst p) (snd p))
                        (subvariant_name (fst q) (snd q)))
            (Bool.eqb (fst p) (fst q) &&
             Bool.eqb (alltypes (snd p)) (alltypes (snd q)) &&
             String.eqb (String.concat "," (extra_3c_args (snd p)))
                        (String.concat "," (extra_3c_args (snd q)))))
      inputs) inputs = true.
Proof. vm_compute. reflexivity. Qed.

(* ===================================================================== *)
(** ** Further properties: fragments, defaults and the pass over the table *)
(* ===================================================================== *)

Section PassOverTable.

Lemma pass_through_empty (l : list string) : Spec.pass_through l = "" -> l = [].
Proof. destruct l; [reflexivity | discriminate]. Qed.

Lemma join_empty_map_const {A} (f : A -> string) (l : list A) :
  (forall x, In x l -> f x = "") -> join "" (map f l) = "".
Proof.
  unfold join. induction l as [|x l IH]; intros H; [reflexivity |].
  cbn [map]. assert (Hx : f x = "") by (apply H; now left).
  assert (Hl : String.concat "" (map f l) = "")
    by (apply IH; intros y Hy; apply H; now right).
  cbn [String.concat]. rewrite Hx. destruct (map f l); [reflexivity | exact Hl].
Qed.

Lemma join_empty_cons (x : string) (l : list string) :
  join "" (x :: l) = x ++ join "" l.
Proof.
  unfold join. destruct l; cbn [String.concat]; [now rewrite append_nil_r | reflexivity].
Qed.

Lemma appends_for_each_join {A} (l : list A) (body : A -> Gen unit)
  (text : A -> string) :
  (forall x, appends (body x) (text x)) ->
  appends (for_each l body) (join "" (map text l)).
Proof.
  intros H. induction l as [|x l IH]; cbn [for_each map].
  - apply appends_ret.
  - rewrite join_empty_cons. apply appends_bind; [apply H | exact IH].
Qed.

Lemma benchmark_selected_test (args : Args) (binfo : BenchmarkInfo) :
  negb (match benchmarks_filter args with [] => true | _ => false end) &&
  negb (str_in (name binfo) (benchmarks_filter args))
  = negb (benchmark_selected args binfo).
Proof.
  unfold benchmark_selected. destruct (benchmarks_filter args); reflexivity.
Qed.

Lemma generate_benchmark_jobs_text (benchmarks : list BenchmarkInfo) (args : Args)
  (config : WorkflowConfig) (locally : bool) :
  appends (generate_benchmark_jobs benchmarks args config locally)
          (jobs_text benchmarks args config locally).
Proof.
  unfold generate_benchmark_jobs, jobs_text.
  apply appends_for_each_join. intros binfo.
  rewrite benchmark_selected_test.
  destruct (benchmark_selected args binfo); cbn [negb]; [| apply appends_ret].
  apply appends_for_each_join. intros m.
  apply appends_for_each_join. intros V.
  apply generate_benchmark_job_appends.
Qed.

End PassOverTable.

(** X1. The tool-argument fragment is the [-alltypes] line if the variant
    has alltypes, then the macro-expansion line if macros are expanded, then
    one [--extra-3c-arg=] line per extra argument, verbatim and in order;
    every line ends in a backslash and a line feed. It is empty exactly when
    neither flag is set and there is no extra argument. *)
Theorem tool_argument_fragment (m : bool) (V : Variant) :
  subvariant_convert_extra m V
  = (if alltypes V then "--extra-3c-arg=-alltypes \" ++ nl else "") ++
    (if m then "--expand_macros_before_conversion \" ++ nl else "") ++
    Spec.pass_through (extra_3c_args V)
  /\ (forall e rest, Spec.pass_through (e :: rest)
                     = "--extra-3c-arg=" ++ e ++ " \" ++ nl ++ Spec.pass_through rest)
  /\ line_closed (subvariant_convert_extra m V) = true
  /\ (subvariant_convert_extra m V = ""
      <-> alltypes V = false /\ m = false /\ extra_3c_args V = []).
Proof.
  rewrite subvariant_convert_extra_closed.
  split; [reflexivity |]. split; [reflexivity |].
  split; [apply line_closed_tool_arguments |].
  unfold Spec.tool_arguments. split.
  - destruct (alltypes V), m; cbn [append]; intros H; try discriminate H.
    repeat split. now apply pass_through_empty.
  - intros [Ha [Hm He]]. now rewrite Ha, Hm, He.
Qed.

(** X2. [ensure_trailing_newline] leaves the empty string and a string that
    ends in a line feed as they are, and adds one line feed to any other
    string; its result is empty or ends in a line feed, and applying it twice
    is applying it once. *)
Theorem ensure_trailing_newline_spec (s : string) :
  ensure_trailing_newline "" = ""
  /\ (endswith_char s LF = true -> ensure_trailing_newline s = s)
  /\ (nonempty s = true -> endswith_char s LF = false ->
      ensure_trailing_newline s = s ++ nl)
  /\ line_closed (ensure_trailing_newline s) = true
  /\ ensure_trailing_newline (ensure_trailing_newline s) = ensure_trailing_newline s.
Proof.
  split; [reflexivity |].
  split; [| split; [| split]].
  - intros H. unfold ensure_trailing_newline. rewrite H. now rewrite andb_false_r.
  - intros Hn He. unfold ensure_trailing_newline. now rewrite Hn, He.
  - apply line_closed_ensure.
  - pose proof (line_closed_ensure s) as H. unfold line_closed in H.
    apply orb_prop in H as [H | H].
    + apply negb_true_iff in H.
      unfold ensure_trailing_newline at 1. now rewrite H.
    + unfold ensure_trailing_newline at 1. rewrite H. now rewrite andb_false_r.
Qed.

Lemma ensure_trailing_newline_spec_witness :
  endswith_char ("make" ++ nl) LF = true
  /\ ensure_trailing_newline ("make" ++ nl) = "make" ++ nl
  /\ nonempty "make" = true /\ endswith_char "make" LF = false
  /\ ensure_trailing_newline "make" = "make" ++ nl.
Proof.
  split; [reflexivity |].
  split; [exact (proj1 (proj2 (ensure_trailing_newline_spec ("make" ++ nl))) eq_refl) |].
  split; [reflexivity |]. split; [reflexivity |].
  exact (proj1 (proj2 (proj2 (ensure_trailing_newline_spec "make"))) eq_refl eq_refl).
Defined.

Lemma component_friendly_name_default (binfo : BenchmarkInfo)
  (sd bd : option string) :
  component_friendly_name binfo (mkComponent (Some (friendly_name binfo)) sd bd)
  = friendly_name binfo.
Proof.
  unfold component_friendly_name. cbn [comp_friendly_name].
  destruct (nonempty (friendly_name binfo)); reflexivity.
Qed.

(** X3. A benchmark without a component list gets the steps of a benchmark
    whose list holds one component with every property at its default: the
    component the loop makes up, named after the benchmark, and the
    all-default component give the same step list, and so does an empty
    component name. *)
Theorem default_component_steps (binfo : BenchmarkInfo) (V : Variant)
  (sv_name sv_convert_extra : string) (stats locally : bool) :
  components binfo = None ->
  job_steps binfo V sv_name sv_convert_extra stats locally
  = job_steps (with_components binfo (Some [mkComponent None None None]))
              V sv_name sv_convert_extra stats locally
  /\ job_steps binfo V sv_name sv_convert_extra stats locally
     = job_steps (with_components binfo (Some [mkComponent (Some "") None None]))
                 V sv_name sv_convert_extra stats locally
  /\ List.length (job_steps binfo V sv_name sv_convert_extra stats locally)
     = (3 + stats_step_count stats locally)%nat.
Proof.
  intros H. split; [| split].
  - destruct binfo as [n fn dn bc bcc ce comps pd dis]. cbn in H. subst comps.
    destruct fn; reflexivity.
  - destruct binfo as [n fn dn bc bcc ce comps pd dis]. cbn in H. subst comps.
    destruct fn; reflexivity.
  - rewrite job_steps_length. unfold defer_failure, components_of. rewrite H.
    cbn. lia.
Qed.

Lemma default_component_steps_witness :
  components vsftpd = None
  /\ job_steps vsftpd greatest_solution "x" "" true false
     = job_steps (with_components vsftpd (Some [mkComponent None None None]))
                 greatest_solution "x" "" true false.
Proof.
  split; [reflexivity |].
  exact (proj1 (default_component_steps vsftpd greatest_solution "x" "" true false
                  eq_refl)).
Defined.

(** X4. The pass over the table never raises. It appends, for each
    benchmark of the table in order that the benchmark filter lets through,
    first the jobs without macro expansion and then those with it, each group
    in the order of the configuration's variants; a job that is not selected
    adds nothing. *)
Theorem jobs_in_loop_order (benchmarks : list BenchmarkInfo) (args : Args)
  (config : WorkflowConfig) (locally : bool) (out : TextIO) :
  generate_benchmark_jobs benchmarks args config locally out
  = (Return tt,
     out ++
     join "" (map (fun binfo =>
       if benchmark_selected args binfo
       then join "" (map (fun V =>
                      selected_job_text args binfo false V (generate_stats config)
                                        locally) (variants config)) ++
            join "" (map (fun V =>
                      selected_job_text args binfo true V (generate_stats config)
                                        locally) (variants config))
       else "") benchmarks)).
Proof.
  rewrite (generate_benchmark_jobs_text benchmarks args config locally out).
  unfold jobs_text. reflexivity.
Qed.

(* ===================================================================== *)
(** ** Further properties: what the two modes write *)
(* ===================================================================== *)

Section Modes.

Variable benchmarks : list BenchmarkInfo.
Variable HEADER : string.
Variable abspath : string -> string.
Variable script_dir : string.
Variable os_open : FileSystem -> string -> Z -> outcome unit * FileSystem.
Variable os_write_close : FileSystem -> string -> string -> outcome unit * FileSystem.

Lemma generate_github_workflow_saves (args : Args) (config : WorkflowConfig)
  (fs : FileSystem) :
  generate_github_workflow benchmarks HEADER os_open os_write_close args config fs
  = save_text os_open os_write_close fs (workflow_path config) default_file_mode
              (formatted_header HEADER config ++
               jobs_text benchmarks args config false).
Proof.
  pose proof (generate_benchmark_jobs_text benchmarks args config false) as Hj.
  unfold appends in Hj.
  unfold generate_github_workflow, save_text, workflow_path, bind, write.
  destruct (os_open fs _ default_file_mode) as [[u | e] fs1]; [| reflexivity].
  cbn [append]. rewrite Hj. cbn [fst snd]. unfold formatted_header.
  destruct (os_write_close fs1 _ _) as [[[] | e] fs2]; reflexivity.
Qed.

Lemma generate_local_script_saves (args : Args) (paths : LocalPaths)
  (config : WorkflowConfig) (fs : FileSystem) :
  generate_local_script benchmarks abspath script_dir os_open os_write_close
                        args paths config fs
  = save_text os_open os_write_close fs (out_fname args) executable_file_mode
      (resolve_placeholders (env_replacements abspath script_dir args paths)
         (local_script_header config ++ jobs_text benchmarks args config true)).
Proof.
  pose proof (generate_benchmark_jobs_text benchmarks args config true) as Hj.
  unfold appends in Hj.
  unfold generate_local_script, bind, write. cbn [append]. rewrite Hj.
  reflexivity.
Qed.

Lemma unselected_benchmarks_text (args : Args) (config : WorkflowConfig)
  (locally : bool) :
  benchmarks_filter args <> [] ->
  (forall b, In b benchmarks -> ~ In (name b) (benchmarks_filter args)) ->
  jobs_text benchmarks args config locally = "".
Proof.
  intros Hne Hno. unfold jobs_text. apply join_empty_map_const.
  intros b Hb. unfold benchmark_selected.
  destruct (benchmarks_filter args) as [|f fl] eqn:E; [contradiction |].
  destruct (str_in (name b) (f :: fl)) eqn:Hin; [| reflexivity].
  apply str_in_In in Hin. exfalso. apply (Hno b Hb). exact Hin.
Qed.

Lemma unselected_subvariants_text (args : Args) (config : WorkflowConfig)
  (locally : bool) :
  subvariants args <> [] ->
  (forall m V, In V (variants config) ->
               ~ In (subvariant_name_base m V) (subvariants args)) ->
  jobs_text benchmarks args config locally = "".
Proof.
  intros Hne Hno. unfold jobs_text. apply join_empty_map_const.
  intros b _. destruct (benchmark_selected args b); [| reflexivity].
  apply join_empty_map_const. intros m _.
  apply join_empty_map_const. intros V HV.
  unfold selected_job_text, job_selected.
  destruct (subvariants args) as [|f fl] eqn:E; [contradiction |].
  destruct (str_in (subvariant_name_base m V) (f :: fl)) eqn:Hin.
  - apply str_in_In in Hin. exfalso. apply (Hno m V HV). exact Hin.
  - now rewrite andb_false_r.
Qed.

(** X5. A filter that matches nothing is no error of the generator. When
    the benchmark filter names no benchmark of the table, or the subvariant
    filter holds none of the names tested for the configuration's variants,
    the pass over the table returns without writing, in both modes; the local
    script handed to the open and write of the output file is then the header
    comment alone, with the placeholders resolved, and the run raises only if
    that open or write does. *)
Theorem unmatched_filter_writes_nothing (args : Args) (config : WorkflowConfig) :
  (benchmarks_filter args <> [] /\
   forall b, In b benchmarks -> ~ In (name b) (benchmarks_filter args))
  \/ (subvariants args <> [] /\
      forall m V, In V (variants config) ->
                  ~ In (subvariant_name_base m V) (subvariants args)) ->
  (forall locally out,
     generate_benchmark_jobs benchmarks args config locally out = (Return tt, out))
  /\ (forall paths fs,
        generate_local_script benchmarks abspath script_dir os_open os_write_close
                              args paths config fs
        = save_text os_open os_write_close fs (out_fname args)
            executable_file_mode
            (resolve_placeholders (env_replacements abspath script_dir args paths)
                                  (local_script_header config))).
Proof.
  intros H.
  assert (E : forall locally, jobs_text benchmarks args config locally = "").
  { intros locally. destruct H as [[H1 H2] | [H1 H2]].
    - now apply unselected_benchmarks_text.
    - now apply unselected_subvariants_text. }
  split.
  - intros locally out.
    rewrite (generate_benchmark_jobs_text benchmarks args config locally out), E.
    now rewrite append_nil_r.
  - intros paths fs. rewrite generate_local_script_saves, E.
    now rewrite append_nil_r.
Qed.

Lemma generate_all_saves (args : Args) (configs : list WorkflowConfig)
  (fs : FileSystem) :
  generate_all benchmarks HEADER os_open os_write_close args configs fs
  = save_texts os_open os_write_close
      (map (fun c => (workflow_path c,
                      formatted_header HEADER c ++
                      jobs_text benchmarks args c false)) configs) fs.
Proof.
  revert fs. induction configs as [|c cs IH]; intros fs; [reflexivity |].
  cbn [generate_all map save_texts]. rewrite generate_github_workflow_saves.
  destruct (save_text _ _ _ _ _ _) as [[u | e] fs']; [apply IH | reflexivity].
Qed.

Lemma save_texts_returns (files : list (string * string)) (fs : FileSystem) :
  (forall fs0 p mode, exists fs1, os_open fs0 p mode = (Return tt, fs1)) ->
  (forall fs0 p text, exists fs1, os_write_close fs0 p text = (Return tt, fs1)) ->
  fst (save_texts os_open os_write_close files fs) = Return tt.
Proof.
  intros Hopen Hwrite. revert fs.
  induction files as [|[p t] files IH]; intros fs; [reflexivity |].
  cbn [save_texts]. unfold save_text.
  destruct (Hopen fs p default_file_mode) as [fs1 E1]. rewrite E1.
  destruct (Hwrite fs1 p t) as [fs2 E2]. rewrite E2.
  apply IH.
Qed.

(** X6. Without the [local] subcommand the generator raises nothing of
    its own: the run is the four opens and writes of the workflow files
    [main.yml], [exhaustivestats.yml], [exhaustiveleastgreatest.yml] and
    [exhaustiveccured.yml] under [.github/workflows/], in this order, each
    with creation mode [0o666] and with its formatted header followed by the
    jobs of its configuration in CI form; it ends at the first of them that
    raises, with that error, and returns normally when none does. *)
Theorem default_mode_writes_workflows (args : Args) (fs : FileSystem) :
  run_locally args = false ->
  main benchmarks HEADER abspath script_dir os_open os_write_close args fs
  = save_texts os_open os_write_close
      (map (fun c => (workflow_path c,
                      formatted_header HEADER c ++
                      jobs_text benchmarks args c false))
           workflow_file_configs) fs
  /\ map workflow_path workflow_file_configs
     = [ ".github/workflows/main.yml";
         ".github/workflows/exhaustivestats.yml";
         ".github/workflows/exhaustiveleastgreatest.yml";
         ".github/workflows/exhaustiveccured.yml" ]
  /\ ((forall fs0 p mode, exists fs1, os_open fs0 p mode = (Return tt, fs1)) ->
      (forall fs0 p text, exists fs1, os_write_close fs0 p text = (Return tt, fs1)) ->
      fst (main benchmarks HEADER abspath script_dir os_open os_write_close args fs)
      = Return tt).
Proof.
  intros H.
  assert (E : main benchmarks HEADER abspath script_dir os_open os_write_close
                   args fs
              = save_texts os_open os_write_close
                  (map (fun c => (workflow_path c,
                                  formatted_header HEADER c ++
                                  jobs_text benchmarks args c false))
                       workflow_file_configs) fs).
  { unfold main. rewrite H. apply generate_all_saves. }
  split; [exact E |]. split; [reflexivity |].
  intros Hopen Hwrite. rewrite E. now apply save_texts_returns.
Qed.

Lemma filter_config_by_name (c : WorkflowConfig) :
  In c workflow_file_configs ->
  filter (fun c' => String.eqb (filename c') (filename c)) workflow_file_configs
  = [c].
Proof.
  unfold workflow_file_configs. cbn [In].
  intros [H | [H | [H | [H | []]]]]; subst c; reflexivity.
Qed.

(** X7. In local mode the run does one of two things: it ends in
    [sys.exit] with the file system as it was, or it is the one open, with
    creation mode [0o777], and write of the output file; it makes no other
    change and raises nothing else of its own. *)
Theorem local_mode_touches_only_output (args : Args) (fs : FileSystem) :
  (exists msg,
     main_local benchmarks abspath script_dir os_open os_write_close args fs
     = (Raise (SystemExit ("Error: " ++ msg)), fs))
  \/ (exists script,
        main_local benchmarks abspath script_dir os_open os_write_close args fs
        = save_text os_open os_write_close fs (out_fname args)
                    executable_file_mode script).
Proof.
  unfold main_local, fatal_error.
  destruct (negb (path_exists fs _)); [left; eexists; reflexivity |].
  destruct (negb (path_exists fs _)); [left; eexists; reflexivity |].
  destruct (negb (path_exists fs _)); [left; eexists; reflexivity |].
  destruct (filter _ workflow_file_configs) as [|c rest];
    [left; eexists; reflexivity |].
  right. rewrite generate_local_script_saves. eexists. reflexivity.
Qed.

(** X8. In local mode, when the 3c binary, the port_tools directory and
    the benchmark directory exist and the configuration name is that of a
    configuration of the table, the run is the open, with creation mode
    [0o777], and write of the output file with the script: the header comment
    and the jobs of that configuration in local form, with the six
    placeholders replaced in the order actions_repo, benchmark_tar_dir,
    benchmark_conv_dir, builddir, port_tools, clang_rename. It returns
    normally when that open and write do, and raises their error when they
    do not. *)
Theorem local_mode_writes_script (args : Args) (fs : FileSystem)
  (c : WorkflowConfig) :
  path_exists fs (abspath (_3c_build_dir args) ++ "/bin/3c") = true ->
  path_exists fs (abspath (_3c_source_dir args) ++
                  "/clang/tools/3c/utils/port_tools") = true ->
  path_exists fs (checkedc_benchmarks_dir args) = true ->
  In c workflow_file_configs ->
  filename c = workflow_config args ->
  let script :=
    resolve_placeholders
      [ ("actions_repo", script_dir);
        ("benchmark_tar_dir", checkedc_benchmarks_dir args);
        ("benchmark_conv_dir", abspath (work_dir args));
        ("builddir", abspath (_3c_build_dir args));
        ("port_tools", abspath (_3c_source_dir args) ++
                       "/clang/tools/3c/utils/port_tools");
        ("clang_rename",
         if use_built_extra_tools args
         then path_join (path_join (abspath (_3c_build_dir args)) "bin")
                        "clang-rename"
         else "clang-rename") ]
      (local_script_header c ++ jobs_text benchmarks args c true) in
  main_local benchmarks abspath script_dir os_open os_write_close args fs
  = save_text os_open os_write_close fs (out_fname args) executable_file_mode
              script
  /\ (forall fs1 fs2,
        os_open fs (out_fname args) executable_file_mode = (Return tt, fs1) ->
        os_write_close fs1 (out_fname args) script = (Return tt, fs2) ->
        main_local benchmarks abspath script_dir os_open os_write_close args fs
        = (Return tt, fs2))
  /\ (forall e fs1,
        os_open fs (out_fname args) executable_file_mode = (Raise e, fs1) ->
        main_local benchmarks abspath script_dir os_open os_write_close args fs
        = (Raise e, fs1)).
Proof.
  intros E1 E2 E3 Hc Hn script.
  assert (E : main_local benchmarks abspath script_dir os_open os_write_close
                         args fs
              = save_text os_open os_write_close fs (out_fname args)
                          executable_file_mode script).
  { unfold main_local. rewrite E1, E2, E3. cbn [negb].
    rewrite <- Hn, (filter_config_by_name c Hc).
    rewrite generate_local_script_saves. reflexivity. }
  split; [exact E |]. split.
  - intros fs1 fs2 Ho Hw. rewrite E. unfold save_text. now rewrite Ho.
  - intros e fs1 Ho. rewrite E. unfold save_text. now rewrite Ho.
Qed.

End Modes.

Lemma default_mode_writes_workflows_witness :
  run_locally default_args = false
  /\ forall fs : FileSystem,
       main [vsftpd] "" (fun p => p) "/actions" readonly_open readonly_write_close
            default_args fs
       = (Raise (OSError
            "[Errno 30] Read-only file system: '.github/workflows/main.yml'"), fs)
       /\ fst (main [vsftpd] "" (fun p => p) "/actions" memory_open
                    memory_write_close default_args fs)
          = Return tt.
Proof.
  split; [reflexivity |]. intros fs. split.
  - rewrite (proj1 (default_mode_writes_workflows [vsftpd] "" (fun p => p)
                      "/actions" readonly_open readonly_write_close default_args
                      fs eq_refl)).
    reflexivity.
  - apply (proj2 (proj2 (default_mode_writes_workflows [vsftpd] "" (fun p => p)
                           "/actions" memory_open memory_write_close default_args
                           fs eq_refl))).
    + intros fs0 p mode. eexists. reflexivity.
    + intros fs0 p text. eexists. reflexivity.
Defined.

Lemma local_mode_writes_script_witness :
  let args := mkArgs true [] [] "run.sh" "/src" "/build" "/bench" "/work"
                     false "main" in
  let fs : FileSystem :=
    fun p => if String.eqb p "/build/bin/3c" then Some (File "")
             else if String.eqb p "/src/clang/tools/3c/utils/port_tools"
                  then Some Dir
                  else if String.eqb p "/bench" then Some Dir else None in
  path_exists fs "/build/bin/3c" = true
  /\ path_exists fs "/src/clang/tools/3c/utils/port_tools" = true
  /\ path_exists fs "/bench" = true
  /\ main_local [vsftpd] (fun p => p) "/actions" readonly_open
                readonly_write_close args fs
     = (Raise (OSError "[Errno 30] Read-only file system: 'run.sh'"), fs)
  /\ exists fs2,
       main_local [vsftpd] (fun p => p) "/actions" memory_open
                  memory_write_close args fs
       = (Return tt, fs2)
       /\ path_exists fs2 "run.sh" = true.
Proof.
  intros args fs.
  do 3 (split; [reflexivity |]).
  split.
  - exact (proj2 (proj2 (local_mode_writes_script [vsftpd] (fun p => p) "/actions"
                    readonly_open readonly_write_close args fs
                    (mkConfig "main" "3C benchmark tests"
                       [mkVariant false [] "" false; mkVariant true [] "" false]
                       (Some "0 5 * * *") false)
                    eq_refl eq_refl eq_refl (or_introl eq_refl) eq_refl))
                 _ fs eq_refl).
  - eexists. split.
    + apply (proj1 (proj2 (local_mode_writes_script [vsftpd] (fun p => p) "/actions"
                      memory_open memory_write_close args fs
                      (mkConfig "main" "3C benchmark tests"
                         [mkVariant false [] "" false; mkVariant true [] "" false]
                         (Some "0 5 * * *") false)
                      eq_refl eq_refl eq_refl (or_introl eq_refl) eq_refl))
                   _ _ eq_refl eq_refl).
    + reflexivity.
Defined.

Lemma unmatched_filter_writes_nothing_witness :
  let args := mkArgs true ["nosuch"] [] "run.sh" "/src" "/build" "/bench" "/work"
                     false "main" in
  (benchmarks_filter args <> [] /\
   forall b, In b [vsftpd; zlib] -> ~ In (name b) (benchmarks_filter args))
  /\ forall c locally out,
       generate_benchmark_jobs [vsftpd; zlib] args c locally out = (Return tt, out).
Proof.
  intros args.
  assert (H : benchmarks_filter args <> [] /\
              forall b, In b [vsftpd; zlib] -> ~ In (name b) (benchmarks_filter args)).
  { split; [discriminate |]. intros b [Hb | [Hb | []]]; subst b;
      intros [E | []]; discriminate E. }
  split; [exact H |]. intros c locally out.
  exact (proj1 (unmatched_filter_writes_nothing [vsftpd; zlib] (fun p => p) "/actions"
                  readonly_open readonly_write_close args c (or_introl H))
               locally out).
Defined.

(* ===================================================================== *)
(** ** Further properties: the text of the steps *)
(* ===================================================================== *)

Section StepTexts.

(** A template line stays one when a text without line feed follows it. *)
Lemma template_line_app (p x : string) :
  template_line p = true -> no_lf x = true -> template_line (p ++ x) = true.
Proof.
  unfold template_line. intros Hp Hx.
  apply andb_prop in Hp as [Hp H3]. apply andb_prop in Hp as [H1 H2].
  destruct p as [|c p]; [discriminate H3 |].
  cbn [append]. rewrite H3.
  change (String c (p ++ x)) with (String c p ++ x).
  rewrite no_lf_append, H1, Hx.
  cbn [append all_blank] in *.
  apply negb_true_iff in H3. rewrite H3. reflexivity.
Qed.

Lemma rstrip_not_endswith (c : ascii) (s : string) :
  endswith_char (rstrip c s) c = false.
Proof.
  induction s as [|a s IH]; [reflexivity |].
  cbn [rstrip]. destruct (rstrip c s) as [|b r] eqn:E.
  - cbn [nonempty negb]. rewrite andb_true_r.
    destruct (Ascii.eqb a c) eqn:Ea; [reflexivity |].
    cbn [endswith_char]. exact Ea.
  - cbn [nonempty negb]. rewrite andb_false_r.
    rewrite endswith_char_cons. exact IH.
Qed.

Lemma rstrip_line_feeds (s : string) :
  exists k, s = rstrip LF s ++ line_feeds k.
Proof.
  induction s as [|a s [k IH]]; [exists 0%nat; reflexivity |].
  cbn [rstrip]. destruct (rstrip LF s) as [|b r] eqn:E.
  - cbn [nonempty negb]. rewrite andb_true_r.
    destruct (Ascii.eqb_spec a LF) as [Ea | Ea].
    + subst a. exists (S k). cbn [append line_feeds]. f_equal. exact IH.
    + exists k. cbn [append]. f_equal. exact IH.
  - cbn [nonempty negb]. rewrite andb_false_r.
    exists k. cbn [append]. f_equal. exact IH.
Qed.

Lemma no_lf_subvariant_dir (sv_name : string) :
  no_lf (subvariant_dir sv_name) = no_lf sv_name.
Proof. reflexivity. Qed.

Lemma no_lf_stats_filenames : no_lf (join " " stats_filenames) = true.
Proof. reflexivity. Qed.

End StepTexts.

Ltac as_block n lines k :=
  match goal with
  | |- context [dedent ?t] =>
      replace t with (block n lines k)
        by (cbn [block]; rewrite ?append_assoc; reflexivity)
  end.

Ltac line_ok :=
  apply template_line_app; [reflexivity |];
  rewrite ?no_lf_append, ?no_lf_subvariant_dir;
  repeat match goal with
         | H : no_lf _ = true |- _ => rewrite H
         end;
  reflexivity.

(** X9. The build step of a job whose subvariant name and directory name
    have no line feed: make and enter the subvariant directory, remove the
    old tree, unpack the archive, apply the patches when the benchmark has a
    patch directory that is not empty, enter the benchmark directory, and run
    the build commands, closed by a line feed. Without a patch directory, or
    with an empty one, there is no patch line. *)
Theorem build_step_text (binfo : BenchmarkInfo) (sv_name : string) :
  no_lf sv_name = true ->
  no_lf (dir_name binfo) = true ->
  (forall p, patch_dir binfo = Some p -> no_lf p = true) ->
  build_step binfo sv_name
  = RunStep ("Build " ++ friendly_name binfo)
      ("mkdir -p ${{env.benchmark_conv_dir}}/" ++ sv_name ++ nl ++
       "cd ${{env.benchmark_conv_dir}}/" ++ sv_name ++ nl ++
       "rm -rf " ++ dir_name binfo ++ nl ++
       "tar -xvzf ${{env.benchmark_tar_dir}}/" ++ dir_name binfo ++ ".tar.gz" ++ nl ++
       patch_line binfo ++
       "cd " ++ dir_name binfo ++ nl ++
       ensure_trailing_newline (build_cmds binfo))
  /\ (patch_dir binfo = None \/ patch_dir binfo = Some "" -> patch_line binfo = "")
  /\ (forall p, patch_dir binfo = Some p -> nonempty p = true ->
        patch_line binfo
        = "for i in ${{env.benchmark_tar_dir}}/" ++ p ++
          "/*; do patch -s -p0 < $i; done" ++ nl).
Proof.
  intros Hsv Hdir Hpatch. split; [| split].
  - unfold build_step, full_build_cmds. f_equal.
    assert (E1 : dedent (spaces 8 ++ "mkdir -p " ++ subvariant_dir sv_name ++ nl ++
                         spaces 8 ++ "cd " ++ subvariant_dir sv_name ++ nl ++
                         spaces 8 ++ "rm -rf " ++ dir_name binfo ++ nl ++
                         spaces 8 ++ "tar -xvzf ${{env.benchmark_tar_dir}}/" ++
                                     dir_name binfo ++ ".tar.gz" ++ nl ++
                         spaces 4)
                 = unlines [ "mkdir -p " ++ subvariant_dir sv_name;
                             "cd " ++ subvariant_dir sv_name;
                             "rm -rf " ++ dir_name binfo;
                             "tar -xvzf ${{env.benchmark_tar_dir}}/" ++
                             dir_name binfo ++ ".tar.gz" ]).
    { as_block 8%nat [ "mkdir -p " ++ subvariant_dir sv_name;
                       "cd " ++ subvariant_dir sv_name;
                       "rm -rf " ++ dir_name binfo;
                       "tar -xvzf ${{env.benchmark_tar_dir}}/" ++
                       dir_name binfo ++ ".tar.gz" ] 4%nat.
      apply dedent_block. cbn [forallb].
      rewrite !andb_true_iff. repeat split; line_ok. }
    assert (E2 : change_dir binfo = "cd " ++ dir_name binfo ++ nl).
    { unfold change_dir.
      as_block 8%nat [ "cd " ++ dir_name binfo ] 4%nat.
      rewrite dedent_block.
      - cbn [unlines]. now rewrite append_nil_r, append_assoc.
      - cbn [forallb]. rewrite andb_true_r. line_ok. }
    assert (E3 : apply_patch_cmd binfo = patch_line binfo).
    { unfold apply_patch_cmd, patch_line.
      destruct (patch_dir binfo) as [p|] eqn:Ep; [| reflexivity].
      destruct (nonempty p); [| reflexivity].
      pose proof (Hpatch p eq_refl) as Hp.
      as_block 12%nat [ "for i in ${{env.benchmark_tar_dir}}/" ++ p ++
                        "/*; do patch -s -p0 < $i; done" ] 8%nat.
      rewrite dedent_block.
      - cbn [unlines]. now rewrite append_nil_r, !append_assoc.
      - cbn [forallb]. rewrite andb_true_r. line_ok. }
    rewrite E1, E2, E3. cbn [unlines]. unfold subvariant_dir.
    rewrite !append_assoc. cbn [append]. reflexivity.
  - unfold patch_line. intros [H | H]; now rewrite H.
  - intros p Hp Hn. unfold patch_line. now rewrite Hp, Hn.
Qed.

Lemma build_step_text_witness :
  no_lf "no_expand_macros_no_alltypes" = true
  /\ no_lf (dir_name vsftpd) = true
  /\ build_step vsftpd "no_expand_macros_no_alltypes"
     = RunStep "Build Vsftpd"
         (unlines
            [ "mkdir -p ${{env.benchmark_conv_dir}}/no_expand_macros_no_alltypes";
              "cd ${{env.benchmark_conv_dir}}/no_expand_macros_no_alltypes";
              "rm -rf vsftpd-3.0.3";
              "tar -xvzf ${{env.benchmark_tar_dir}}/vsftpd-3.0.3.tar.gz";
              "cd vsftpd-3.0.3";
              "bear " ++ vsftpd_make ]).
Proof.
  do 2 (split; [reflexivity |]).
  assert (Hp : forall p, patch_dir vsftpd = Some p -> no_lf p = true)
    by (intros p H; discriminate H).
  exact (proj1 (build_step_text vsftpd "no_expand_macros_no_alltypes"
                  eq_refl eq_refl Hp)).
Defined.

(** X10. The build-converted step of a component whose directory has no
    line feed: enter the component directory, move the converted files out of
    [out.checked] if it is there, enter the build directory if the component
    has one, and run the post-conversion build command without its trailing
    line feeds, followed on the same line by the filter pipe exactly when the
    variant has alltypes and by the deferral exactly when the benchmark has
    more than one component. The step name carries the same two marks. *)
Theorem build_converted_step_text (binfo : BenchmarkInfo) (V : Variant)
  (sv_name : string) (c : BenchmarkComponent) :
  no_lf (component_dir binfo sv_name c) = true ->
  build_converted_step binfo V sv_name c
  = RunStep
      ("Build converted " ++ component_friendly_name binfo c ++
       (if alltypes V then " (filter bounds inference errors)" else "") ++
       (if (1 <? component_count binfo)%nat then " (defer failure)" else ""))
      ("cd " ++ component_dir binfo sv_name c ++ nl ++
       "if [ -e " ++ dq ++ "out.checked" ++ dq ++
       " ]; then cp -r out.checked/* . && rm -r out.checked; fi" ++ nl ++
       match build_dir c with
       | Some d => "cd " ++ d ++ nl
       | None => ""
       end ++
       rstrip LF (build_converted_cmd binfo) ++
       (if alltypes V
        then " 2>&1 | ${{env.actions_repo}}/filter-bounds-inference-errors.py"
        else "") ++
       (if (1 <? component_count binfo)%nat
        then " || echo " ++ component_friendly_name binfo c ++ " >>" ++
             benchmark_dir binfo sv_name ++ "/failed-components-list.txt"
        else "") ++
       nl)
  /\ endswith_char (rstrip LF (build_converted_cmd binfo)) LF = false
  /\ exists k, build_converted_cmd binfo
               = rstrip LF (build_converted_cmd binfo) ++ line_feeds k.
Proof.
  intros Hdir. split; [| split].
  - unfold build_converted_step, at_filter_step, at_filter_code,
           defer_failure_step, defer_failure_code, defer_failure,
           failed_components_fname.
    rewrite component_count_length. f_equal.
    as_block 20%nat
      [ "cd " ++ component_dir binfo sv_name c;
        "if [ -e " ++ dq ++ "out.checked" ++ dq ++
        " ]; then cp -r out.checked/* . && rm -r out.checked; fi" ] 16%nat.
    rewrite dedent_block.
    + cbn [unlines]. rewrite !append_assoc. cbn [append]. reflexivity.
    + cbn [forallb]. rewrite !andb_true_iff. repeat split; try reflexivity.
      line_ok.
  - apply rstrip_not_endswith.
  - apply rstrip_line_feeds.
Qed.

Lemma build_converted_step_text_witness :
  let c := mkComponent (Some "bh") (Some "bh") None in
  no_lf (component_dir olden "expand_macros_alltypes" c) = true
  /\ build_converted_step olden (mkVariant true [] "" false)
                          "expand_macros_alltypes" c
     = RunStep "Build converted bh (filter bounds inference errors) (defer failure)"
         (unlines
            [ "cd ${{env.benchmark_conv_dir}}/expand_macros_alltypes/Olden/bh";
              "if [ -e " ++ dq ++ "out.checked" ++ dq ++
              " ]; then cp -r out.checked/* . && rm -r out.checked; fi";
              make_checkedc ++ " -k LOCAL_CFLAGS=" ++ dq ++ common_cflags ++
              " -D_ISOC99_SOURCE" ++ dq ++
              " 2>&1 | ${{env.actions_repo}}/filter-bounds-inference-errors.py" ++
              " || echo bh >>${{env.benchmark_conv_dir}}/expand_macros_alltypes/Olden/failed-components-list.txt" ]).
Proof.
  intros c. split; [reflexivity |].
  exact (proj1 (build_converted_step_text olden (mkVariant true [] "" false)
                  "expand_macros_alltypes" c eq_refl)).
Defined.

Lemma path_join_relative (a b : string) :
  nonempty a = true -> startswith b "/" = false ->
  path_join a b = a ++ (if endswith_char a (chr 47) then "" else "/") ++ b.
Proof.
  intros Ha Hb. unfold path_join. rewrite Hb, Ha. cbn [negb orb].
  destruct (endswith_char a (chr 47)); reflexivity.
Qed.

(** X11. The stats stage of a component whose directory and artifact name
    have no line feed. In local mode it is one run step that makes the shared
    stats directory, removes an old zip of the same name and zips the four
    stats files into [stats/<component name>_<subvariant name>.zip]. In CI
    mode it is a run step that copies the four files into
    [3c_performance_stats/], followed by the upload action with the artifact
    name [<component name>_<subvariant name>], that directory as path, and
    five days of retention. Without stats there is no step. *)
Theorem stats_steps_text (binfo : BenchmarkInfo) (sv_name : string)
  (c : BenchmarkComponent) :
  let cdir := component_dir binfo sv_name c in
  let artifact := component_friendly_name binfo c ++ "_" ++ sv_name in
  let zip := "${{env.benchmark_conv_dir}}/stats/" ++ artifact ++ ".zip" in
  let files := "PerWildPtrStats.json TotalConstraintStats.json.aggregate.json TotalConstraintStats.json WildPtrStats.json" in
  no_lf cdir = true ->
  no_lf artifact = true ->
  stats_steps binfo sv_name true true c
  = [ RunStep ("Save 3c stats of " ++ component_friendly_name binfo c)
        ("cd " ++ cdir ++ nl ++
         "mkdir -p ${{env.benchmark_conv_dir}}/stats" ++ nl ++
         "rm -f " ++ zip ++ nl ++
         "zip " ++ zip ++ " " ++ files ++ nl) ]
  /\ stats_steps binfo sv_name true false c
     = [ RunStep ("Copy 3c stats of " ++ component_friendly_name binfo c)
           ("cd " ++ cdir ++ nl ++
            "mkdir 3c_performance_stats/" ++ nl ++
            "cp " ++ files ++ " 3c_performance_stats/" ++ nl);
         ActionStep ("Upload 3c stats of " ++ component_friendly_name binfo c)
           "actions/upload-artifact@v2"
           [ ("name", AStr artifact);
             ("path", AStr (cdir ++
                            (if endswith_char cdir (chr 47) then "" else "/") ++
                            "3c_performance_stats/"));
             ("retention-days", AInt 5) ] ]
  /\ (forall locally, stats_steps binfo sv_name false locally c = []).
Proof.
  intros cdir artifact zip files Hdir Hart.
  assert (Hzip : no_lf (stats_zip binfo sv_name c) = true).
  { unfold stats_zip, perf_artifact_name. fold artifact.
    rewrite !no_lf_append, Hart. reflexivity. }
  split; [| split; [| reflexivity]].
  - unfold stats_steps, save_stats_step. do 2 f_equal.
    as_block 28%nat
      [ "cd " ++ component_dir binfo sv_name c;
        "mkdir -p " ++ all_stats_dir;
        "rm -f " ++ stats_zip binfo sv_name c;
        "zip " ++ stats_zip binfo sv_name c ++ " " ++ join " " stats_filenames ]
      24%nat.
    rewrite dedent_block.
    + cbn [unlines]. unfold stats_zip, perf_artifact_name, all_stats_dir.
      subst cdir zip artifact files. rewrite !append_assoc. cbn [append].
      reflexivity.
    + cbn [forallb]. rewrite !andb_true_iff. fold cdir.
      repeat split; try reflexivity; line_ok.
  - unfold stats_steps, copy_stats_step, upload_stats_step, perf_artifact_name.
    fold cdir. fold artifact. f_equal.
    + f_equal.
      as_block 28%nat
        [ "cd " ++ cdir;
          "mkdir " ++ perf_dir_name;
          "cp " ++ join " " stats_filenames ++ " " ++ perf_dir_name ] 24%nat.
      rewrite dedent_block.
      * cbn [unlines]. subst files. rewrite !append_assoc. cbn [append].
        reflexivity.
      * cbn [forallb]. rewrite !andb_true_iff.
        repeat split; try reflexivity; line_ok.
    + rewrite (path_join_relative cdir perf_dir_name); [reflexivity | | reflexivity].
      subst cdir. unfold component_dir, benchmark_dir, subvariant_dir.
      destruct (subdir c); reflexivity.
Qed.

Lemma stats_steps_text_witness :
  let c := mkComponent None None (Some "build") in
  no_lf (component_dir zlib "no_expand_macros_alltypes" c) = true
  /\ no_lf (component_friendly_name zlib c ++ "_" ++ "no_expand_macros_alltypes") = true
  /\ List.length (stats_steps zlib "no_expand_macros_alltypes" true false c) = 2%nat.
Proof.
  intros c. do 2 (split; [reflexivity |]).
  rewrite (proj1 (proj2 (stats_steps_text zlib "no_expand_macros_alltypes" c
                           eq_refl eq_refl))).
  reflexivity.
Defined.

Lemma action_body_text (n a : string) (kv : list (string * ArgVal)) :
  no_lf a = true ->
  format_body (ActionStep n a kv)
  = "uses: " ++ a ++ nl ++ "with:" ++ nl ++ indent (formatted_args kv) (spaces 2).
Proof.
  intros Ha. unfold format_body. fold (formatted_args kv).
  as_block 12%nat [ "uses: " ++ a; "with:" ] 8%nat.
  rewrite dedent_block.
  - cbn [unlines]. rewrite !append_assoc. cbn [append]. reflexivity.
  - cbn [forallb]. rewrite !andb_true_iff.
    repeat split; try reflexivity; line_ok.
Qed.

(** X12. The body of an action step whose action name has no line feed is
    the [uses:] line with the action, the [with:] line, and then one line
    [key: value] per argument in the order of the dictionary, indented by two
    blanks, an integer value in decimal. *)
Theorem action_step_body (n a : string) (kv : list (string * ArgVal)) :
  no_lf a = true ->
  format_body (ActionStep n a kv)
  = "uses: " ++ a ++ nl ++ "with:" ++ nl ++ indent (formatted_args kv) (spaces 2)
  /\ (forall k v rest,
        formatted_args ((k, v) :: rest)
        = k ++ ": " ++ format_argval v ++ nl ++ formatted_args rest)
  /\ formatted_args [] = ""
  /\ format_argval (AInt 5) = "5".
Proof.
  intros Ha. split; [| split; [| split; reflexivity]].
  - now apply action_body_text.
  - intros k v rest. unfold formatted_args. cbn [map fst snd].
    rewrite join_empty_cons, !append_assoc. reflexivity.
Qed.

Lemma action_step_body_witness :
  no_lf "actions/upload-artifact@v2" = true
  /\ format_body (ActionStep "Upload" "actions/upload-artifact@v2"
                             [("name", AStr "x"); ("retention-days", AInt 5)])
     = unlines [ "uses: actions/upload-artifact@v2"; "with:";
                 "  name: x"; "  retention-days: 5" ].
Proof.
  split; [reflexivity |].
  exact (proj1 (action_step_body "Upload" "actions/upload-artifact@v2"
                  [("name", AStr "x"); ("retention-days", AInt 5)] eq_refl)).
Defined.

(* ===================================================================== *)
(** ** Further properties: indentation of the CI form *)
(* ===================================================================== *)

Section IndentTwice.

Lemma linebreak_isspace (c : ascii) : is_linebreak c = true -> isspace c = true.
Proof.
  destruct c as [[] [] [] [] [] [] [] []]; vm_compute; intros H;
    first [reflexivity | discriminate H].
Qed.

Lemma indent_lines (t p : string) :
  indent t p = join "" (map (prefix_line p) (splitlines_keepends t)).
Proof. reflexivity. Qed.

Lemma splitlines_first (c : ascii) (s : string) :
  exists l ls, splitlines_keepends (String c s) = String c l :: ls.
Proof.
  cbn [splitlines_keepends].
  destruct (is_linebreak c && _); [eexists; eexists; reflexivity |].
  destruct (splitlines_keepends s); eexists; eexists; reflexivity.
Qed.

Lemma splitlines_nil (s : string) : splitlines_keepends s = [] -> s = "".
Proof.
  destruct s as [|c s]; [reflexivity |].
  intros H. now apply splitlines_keepends_cons in H.
Qed.

Lemma splitlines_head (s l : string) (ls : list string) :
  splitlines_keepends s = l :: ls ->
  nonempty l = true /\ starts_with_lf l = starts_with_lf s.
Proof.
  destruct s as [|c s]; [discriminate |].
  destruct (splitlines_first c s) as [l0 [ls0 E]]. rewrite E.
  intros H. injection H as H _. subst l. split; reflexivity.
Qed.

Lemma starts_with_lf_append (a b : string) :
  nonempty a = true -> starts_with_lf (a ++ b) = starts_with_lf a.
Proof. destruct a; [discriminate | reflexivity]. Qed.

Variable p : string.
Hypothesis Hp : break_free p = true.

Lemma splitlines_prefix (x : string) :
  splitlines_keepends (p ++ x)
  = match splitlines_keepends x with
    | [] => if nonempty p then [p] else []
    | l :: ls => (p ++ l) :: ls
    end.
Proof.
  clear -Hp. induction p as [|a q IH].
  - cbn [append nonempty]. destruct (splitlines_keepends x); reflexivity.
  - cbn [break_free] in Hp. apply andb_prop in Hp as [Ha Hq].
    apply negb_true_iff in Ha. specialize (IH Hq).
    cbn [append splitlines_keepends]. rewrite Ha. cbn [andb]. rewrite IH.
    destruct (splitlines_keepends x) as [|l ls]; [| reflexivity].
    destruct q; reflexivity.
Qed.

Lemma starts_with_lf_prefix_line (l : string) :
  nonempty l = true ->
  starts_with_lf (prefix_line p l) = true -> starts_with_lf l = true.
Proof.
  intros Hl. unfold prefix_line. destruct (has_nonspace l); [| trivial].
  destruct p as [|a q]; [trivial |].
  cbn [append starts_with_lf]. intros Ha. apply Ascii.eqb_eq in Ha. subst a.
  cbn [break_free] in Hp. discriminate Hp.
Qed.

Lemma indent_head (s : string) :
  starts_with_lf (indent s p) = true -> starts_with_lf s = true.
Proof.
  rewrite indent_lines.
  destruct (splitlines_keepends s) as [|l ls] eqn:E; [discriminate |].
  destruct (splitlines_head _ _ _ E) as [Hl Hs].
  cbn [map]. rewrite join_empty_cons. intros H.
  rewrite <- Hs. apply starts_with_lf_prefix_line; [exact Hl |].
  rewrite starts_with_lf_append in H; [exact H |].
  unfold prefix_line. destruct (has_nonspace l); [| exact Hl].
  destruct p; [exact Hl | reflexivity].
Qed.

(** [indent] keeps the lines of a text apart. *)
Lemma splitlines_indent (t : string) :
  splitlines_keepends (indent t p)
  = map (prefix_line p) (splitlines_keepends t).
Proof.
  induction t as [|c s IH]; [reflexivity |].
  cbn [splitlines_keepends].
  change (match s with String d _ => Ascii.eqb d LF | "" => false end)
    with (starts_with_lf s).
  destruct (is_linebreak c && negb (Ascii.eqb c CR && starts_with_lf s)) eqn:Hc.
  - (* the line ends at [c] *)
    assert (Hb : is_linebreak c = true) by (apply andb_prop in Hc; tauto).
    assert (Hf : prefix_line p (String c "") = String c "").
    { unfold prefix_line. cbn [has_nonspace].
      now rewrite (linebreak_isspace c Hb). }
    assert (E : indent (String c s) p = String c (indent s p)).
    { rewrite indent_lines. cbn [splitlines_keepends].
      change (match s with String d _ => Ascii.eqb d LF | "" => false end)
        with (starts_with_lf s).
      rewrite Hc. cbn [map]. rewrite join_empty_cons, Hf. reflexivity. }
    rewrite E. cbn [splitlines_keepends map].
    change (match indent s p with String d _ => Ascii.eqb d LF | "" => false end)
      with (starts_with_lf (indent s p)).
    rewrite Hf, IH, Hb. cbn [andb].
    destruct (Ascii.eqb c CR && starts_with_lf (indent s p)) eqn:Hcr;
      [| reflexivity].
    apply andb_prop in Hcr as [H1 H2]. apply indent_head in H2.
    rewrite Hb, H1, H2 in Hc. discriminate Hc.
  - (* the line goes on after [c] *)
    destruct (splitlines_keepends s) as [|l ls] eqn:EL.
    + apply splitlines_nil in EL. subst s.
      rewrite indent_lines. cbn [splitlines_keepends starts_with_lf] in *.
      rewrite andb_false_r in Hc. cbn [negb] in Hc. rewrite andb_true_r in Hc.
      rewrite Hc. cbn [andb map]. unfold join. cbn [String.concat].
      unfold prefix_line. destruct (has_nonspace (String c "")).
      * rewrite splitlines_prefix. cbn [splitlines_keepends].
        rewrite Hc. reflexivity.
      * cbn [splitlines_keepends]. rewrite Hc. reflexivity.
    + destruct (splitlines_head _ _ _ EL) as [Hl Hs].
      set (J := join "" (map (prefix_line p) ls)).
      assert (Es : indent s p = prefix_line p l ++ J).
      { rewrite indent_lines, EL. cbn [map]. apply join_empty_cons. }
      assert (S1 : splitlines_keepends (l ++ J) = l :: map (prefix_line p) ls).
      { rewrite Es in IH. cbn [map] in IH.
        destruct (has_nonspace l) eqn:Hn.
        2:{ assert (E0 : prefix_line p l = l)
              by (unfold prefix_line; now rewrite Hn).
            rewrite E0 in IH. exact IH. }
        assert (E0 : prefix_line p l = p ++ l)
          by (unfold prefix_line; now rewrite Hn).
        rewrite E0 in IH.
        rewrite append_assoc, splitlines_prefix in IH.
        destruct (splitlines_keepends (l ++ J)) as [|l1 r1] eqn:E1.
        - apply splitlines_nil in E1. destruct l; discriminate.
        - injection IH as H1 H2. apply append_inv_head in H1. now subst. }
      assert (S2 : splitlines_keepends (String c (l ++ J))
                   = String c l :: map (prefix_line p) ls).
      { cbn [splitlines_keepends].
        change (match l ++ J with String d _ => Ascii.eqb d LF | "" => false end)
          with (starts_with_lf (l ++ J)).
        rewrite (starts_with_lf_append _ _ Hl), Hs, Hc, S1. reflexivity. }
      assert (Et : indent (String c s) p = prefix_line p (String c l) ++ J).
      { rewrite indent_lines. cbn [splitlines_keepends].
        change (match s with String d _ => Ascii.eqb d LF | "" => false end)
          with (starts_with_lf s).
        rewrite Hc, EL. cbn [map]. apply join_empty_cons. }
      rewrite Et. cbn [map].
      destruct (has_nonspace (String c l)) eqn:Hn.
      * assert (E0 : prefix_line p (String c l) = p ++ String c l)
          by (unfold prefix_line; now rewrite Hn).
        rewrite E0, append_assoc, splitlines_prefix.
        change (String c l ++ J) with (String c (l ++ J)). now rewrite S2.
      * assert (E0 : prefix_line p (String c l) = String c l)
          by (unfold prefix_line; now rewrite Hn).
        rewrite E0. exact S2.
Qed.

End IndentTwice.

Section EntryLayout.

Lemma has_nonspace_append (a b : string) :
  has_nonspace (a ++ b) = has_nonspace a || has_nonspace b.
Proof.
  induction a as [|c a IH]; [reflexivity |].
  cbn [append has_nonspace]. now rewrite IH, orb_assoc.
Qed.

Lemma break_free_append (a b : string) :
  break_free (a ++ b) = break_free a && break_free b.
Proof.
  induction a as [|c a IH]; [reflexivity |].
  cbn [append break_free]. now rewrite IH, andb_assoc.
Qed.

Lemma break_free_no_lf (s : string) : break_free s = true -> no_lf s = true.
Proof.
  induction s as [|c s IH]; [reflexivity |].
  cbn [break_free no_lf]. intros H. apply andb_prop in H as [Hc Hs].
  rewrite (IH Hs), andb_true_r. apply negb_true_iff.
  destruct (Ascii.eqb_spec c LF) as [E|E]; [| reflexivity].
  subst c. discriminate Hc.
Qed.

Lemma break_free_spaces (k : nat) : break_free (spaces k) = true.
Proof. induction k as [|k IH]; [reflexivity | exact IH]. Qed.

(** Indenting twice is indenting once by both prefixes. *)
Lemma indent_indent (t p q : string) :
  break_free p = true -> indent (indent t p) q = indent t (q ++ p).
Proof.
  intros Hp.
  rewrite (indent_lines (indent t p)), (splitlines_indent p Hp), map_map.
  rewrite (indent_lines t). f_equal. apply map_ext. intros l.
  unfold prefix_line. destruct (has_nonspace l) eqn:Hn; cbn iota.
  - now rewrite has_nonspace_append, Hn, orb_true_r, append_assoc.
  - now rewrite Hn.
Qed.

(** A first line that is not blank takes the prefix; the rest is indented
    on its own. *)
Lemma indent_line_then (body rest p : string) :
  break_free body = true -> has_nonspace body = true ->
  indent (body ++ nl ++ rest) p = p ++ body ++ nl ++ indent rest p.
Proof.
  intros Hb Hn.
  assert (E : indent (body ++ nl) p = p ++ body ++ nl).
  { rewrite indent_lines, (splitlines_prefix body Hb).
    change (splitlines_keepends nl) with [nl]. cbn [map].
    assert (E0 : prefix_line p (body ++ nl) = p ++ body ++ nl).
    { unfold prefix_line. now rewrite has_nonspace_append, Hn. }
    rewrite E0. reflexivity. }
  rewrite <- append_assoc.
  rewrite indent_app by apply line_closed_nl.
  rewrite E. now rewrite !append_assoc.
Qed.

End EntryLayout.

(** X13. A step in the CI form, when its name has no line boundary: the
    name line after six blanks, then for a run step the [run: |] line after
    eight blanks and the commands with every line that is not blank ten
    blanks in, and for an action step (whose action name has no line boundary
    either) the [uses:] and [with:] lines after eight blanks and each
    argument line ten blanks in. *)
Theorem ci_step_entry (n : string) :
  break_free n = true ->
  (forall run,
     step_str (RunStep n run)
     = spaces 6 ++ "- name: " ++ n ++ nl ++
       spaces 8 ++ "run: |" ++ nl ++
       indent run (spaces 10))
  /\ (forall a kv,
        break_free a = true ->
        step_str (ActionStep n a kv)
        = spaces 6 ++ "- name: " ++ n ++ nl ++
          spaces 8 ++ "uses: " ++ a ++ nl ++
          spaces 8 ++ "with:" ++ nl ++
          indent (formatted_args kv) (spaces 10)).
Proof.
  intros Hn.
  assert (Hname : forall body p,
            indent ("- name: " ++ n ++ nl ++ body) p
            = p ++ "- name: " ++ n ++ nl ++ indent body p).
  { intros body p.
    change ("- name: " ++ n ++ nl ++ body) with (("- name: " ++ n) ++ nl ++ body).
    rewrite indent_line_then.
    - now rewrite !append_assoc.
    - now rewrite break_free_append, Hn.
    - reflexivity. }
  split.
  - intros run. unfold step_str. cbn [step_name_of format_body].
    rewrite Hname.
    rewrite (indent_line_then "run: |" _ (spaces 2)) by reflexivity.
    rewrite (indent_indent run) by apply break_free_spaces.
    change (spaces 2 ++ "run: |" ++ nl ++ indent run (spaces 2 ++ spaces 2))
      with ("  run: |" ++ nl ++ indent run (spaces 4)).
    rewrite (indent_line_then "  run: |" _ (spaces 6)) by reflexivity.
    rewrite (indent_indent run) by apply break_free_spaces.
    reflexivity.
  - intros a kv Ha. unfold step_str. cbn [step_name_of].
    rewrite Hname, (action_body_text n a kv (break_free_no_lf a Ha)).
    change ("uses: " ++ a ++ nl ++ "with:" ++ nl ++
            indent (formatted_args kv) (spaces 2))
      with (("uses: " ++ a) ++ nl ++ "with:" ++ nl ++
            indent (formatted_args kv) (spaces 2)).
    rewrite (indent_line_then ("uses: " ++ a) _ (spaces 2));
      [| now rewrite break_free_append, Ha | reflexivity].
    rewrite (indent_line_then "with:" _ (spaces 2)) by reflexivity.
    rewrite (indent_indent (formatted_args kv)) by apply break_free_spaces.
    change (spaces 2 ++ ("uses: " ++ a) ++ nl ++ spaces 2 ++ "with:" ++ nl ++
            indent (formatted_args kv) (spaces 2 ++ spaces 2))
      with (("  uses: " ++ a) ++ nl ++ "  with:" ++ nl ++
            indent (formatted_args kv) (spaces 4)).
    rewrite (indent_line_then ("  uses: " ++ a) _ (spaces 6));
      [| now rewrite break_free_append, Ha | reflexivity].
    rewrite (indent_line_then "  with:" _ (spaces 6)) by reflexivity.
    rewrite (indent_indent (formatted_args kv)) by apply break_free_spaces.
    rewrite !append_assoc. reflexivity.
Qed.

Lemma ci_step_entry_witness :
  break_free "Build Vsftpd" = true
  /\ step_str (RunStep "Build Vsftpd" ("cd x" ++ nl ++ nl ++ "make" ++ nl))
     = unlines [ "      - name: Build Vsftpd";
                 "        run: |";
                 "          cd x";
                 "";
                 "          make" ].
Proof.
  split; [reflexivity |].
  exact (proj1 (ci_step_entry "Build Vsftpd" eq_refl)
               ("cd x" ++ nl ++ nl ++ "make" ++ nl)).
Defined.

(* ===================================================================== *)
(** ** Further properties: the trailing line feed of every step *)
(* ===================================================================== *)

Section TrailingNewline.

Lemma split_nl_cons (s : string) : split_nl s <> [].
Proof.
  destruct s as [|c s]; [discriminate |].
  cbn [split_nl]. destruct (Ascii.eqb c LF); [discriminate |].
  destruct (split_nl s); discriminate.
Qed.

Lemma split_nl_app (x y : string) :
  split_nl (x ++ nl ++ y) = (split_nl x ++ split_nl y)%list.
Proof.
  induction x as [|c x IH]; [reflexivity |].
  change (String c x ++ nl ++ y) with (String c (x ++ nl ++ y)).
  cbn [split_nl]. rewrite IH.
  destruct (Ascii.eqb c LF); [reflexivity |].
  pose proof (split_nl_cons x) as Hx.
  destruct (split_nl x) as [|l ls]; [contradiction | reflexivity].
Qed.

Lemma line_closed_unlines (ls : list string) : line_closed (unlines ls) = true.
Proof.
  induction ls as [|a ls IH]; [reflexivity |].
  cbn [unlines]. rewrite <- append_assoc.
  apply line_closed_app; [apply line_closed_nl | exact IH].
Qed.

Lemma join_nl_trailing (ls : list string) :
  ls <> [] -> endswith_char (join nl (ls ++ [""])%list) LF = true.
Proof.
  intros H. rewrite join_nl_unlines.
  pose proof (line_closed_unlines ls) as Hc. unfold line_closed in Hc.
  destruct ls as [|a ls]; [contradiction |].
  destruct (unlines (a :: ls)) eqn:E.
  - cbn [unlines] in E. destruct a; discriminate E.
  - exact Hc.
Qed.

Lemma strip_margin_empty (m : string) : strip_margin m "" = "".
Proof. unfold strip_margin. destruct (startswith "" m); [| reflexivity]. now destruct m. Qed.

(** A template that closes its last line before the final blanks is
    dedented to a text that ends in a line feed, whatever it holds. *)
Lemma dedent_trailing (x : string) (k : nat) :
  endswith_char (dedent (x ++ nl ++ spaces k)) LF = true.
Proof.
  unfold dedent. rewrite split_nl_app, (split_nl_no_lf _ (no_lf_spaces k)).
  rewrite map_app. cbn [map].
  assert (Eb : blank_to_empty (spaces k) = "")
    by (unfold blank_to_empty; now rewrite all_blank_spaces).
  rewrite Eb.
  set (L := map blank_to_empty (split_nl x)).
  assert (HL : L <> []).
  { subst L. pose proof (split_nl_cons x). destruct (split_nl x); [contradiction | discriminate]. }
  destruct (fold_left margin_step _ None) as [m|]; [| now apply join_nl_trailing].
  destruct (nonempty m); [| now apply join_nl_trailing].
  rewrite map_app. cbn [map]. rewrite strip_margin_empty.
  apply join_nl_trailing. destruct L; [contradiction | discriminate].
Qed.

Lemma splitlines_last (t : string) :
  endswith_char t LF = true ->
  exists ls l, splitlines_keepends t = (ls ++ [l])%list
               /\ endswith_char l LF = true.
Proof.
  induction t as [|c s IH]; [discriminate |].
  destruct s as [|d s].
  - cbn [endswith_char]. intros Hc. apply Ascii.eqb_eq in Hc. subst c.
    exists [], nl. split; reflexivity.
  - rewrite endswith_char_cons. intros Hs.
    destruct (IH Hs) as [ls [l [E El]]].
    cbn [splitlines_keepends] in *. revert E.
    set (r := if is_linebreak d && _ then _ else _). intros E. rewrite E.
    destruct (is_linebreak c && _).
    + exists (String c "" :: ls), l. split; [reflexivity | exact El].
    + destruct ls as [|f ls].
      * exists [], (String c l). split; [reflexivity |].
        destruct l; [discriminate El | exact El].
      * exists (String c f :: ls), l. split; [reflexivity | exact El].
Qed.

Lemma indent_trailing (t p : string) :
  endswith_char t LF = true -> endswith_char (indent t p) LF = true.
Proof.
  intros H. destruct (splitlines_last t H) as [ls [l [E El]]].
  rewrite indent_lines, E, map_app, join_empty_app.
  cbn [map]. unfold join at 2. cbn [String.concat].
  assert (Hl : nonempty l = true) by (destruct l; [discriminate El | reflexivity]).
  assert (Hp : endswith_char (prefix_line p l) LF = true).
  { unfold prefix_line. destruct (has_nonspace l); [| exact El].
    now rewrite endswith_char_append. }
  rewrite endswith_char_append; [exact Hp |].
  destruct (prefix_line p l); [discriminate Hp | reflexivity].
Qed.

Lemma endswith_nl (a : string) : endswith_char (a ++ nl) LF = true.
Proof. now rewrite endswith_char_append. Qed.

Lemma ensure_trailing_newline_closed (a s : string) :
  endswith_char a LF = true ->
  endswith_char (a ++ ensure_trailing_newline s) LF = true.
Proof.
  intros Ha. pose proof (line_closed_ensure s) as H. unfold line_closed in H.
  destruct (ensure_trailing_newline s) as [|c e] eqn:E.
  - now rewrite append_nil_r.
  - cbn [nonempty negb orb] in H. now rewrite endswith_char_append.
Qed.

End TrailingNewline.

Section ClosedSteps.

Lemma dedent_trailing_left (x : string) (k : nat) :
  endswith_char (dedent ((x ++ nl) ++ spaces k)) LF = true.
Proof. rewrite append_assoc. apply dedent_trailing. Qed.

Lemma endswith_after (a b : string) :
  endswith_char b LF = true -> endswith_char (a ++ b) LF = true.
Proof.
  intros H. rewrite endswith_char_append; [exact H |].
  destruct b; [discriminate H | reflexivity].
Qed.

Lemma formatted_args_closed (kv : list (string * ArgVal)) :
  line_closed (formatted_args kv) = true.
Proof.
  unfold formatted_args. induction kv as [|[k v] kv IH]; [reflexivity |].
  cbn [map fst snd]. rewrite join_empty_cons.
  apply line_closed_app; [| exact IH].
  rewrite <- !append_assoc. apply line_closed_nl.
Qed.

Lemma format_body_closed (s : Step) :
  run_closed s = true -> endswith_char (format_body s) LF = true.
Proof.
  destruct s as [n run | n a kv]; cbn [run_closed format_body].
  - intros H. do 2 apply endswith_after.
    now apply indent_trailing.
  - intros _. fold (formatted_args kv).
    pose proof (formatted_args_closed kv) as Hc. unfold line_closed in Hc.
    assert (Hd : endswith_char
                   (dedent (spaces 12 ++ "uses: " ++ a ++ nl ++
                            spaces 12 ++ "with:" ++ nl ++ spaces 8)) LF = true).
    { rewrite <- !append_assoc. apply dedent_trailing_left. }
    destruct (formatted_args kv) as [|c r] eqn:E.
    + change (indent "" (spaces 2)) with "". now rewrite append_nil_r.
    + cbn [nonempty negb orb] in Hc. apply endswith_after.
      now apply indent_trailing.
Qed.

Lemma step_str_closed (s : Step) :
  run_closed s = true -> endswith_char (step_str s) LF = true.
Proof.
  intros H. unfold step_str. apply indent_trailing.
  do 3 apply endswith_after.
  apply indent_trailing. now apply format_body_closed.
Qed.

Variables (binfo : BenchmarkInfo) (V : Variant) (sv_name sv_convert_extra : string).

Lemma build_step_closed : run_closed (build_step binfo sv_name) = true.
Proof.
  cbn [build_step run_closed]. unfold full_build_cmds.
  rewrite <- !append_assoc. apply ensure_trailing_newline_closed.
  apply endswith_after. unfold change_dir.
  rewrite <- !append_assoc. apply dedent_trailing_left.
Qed.

Lemma convert_step_closed (c : BenchmarkComponent) :
  run_closed (convert_step binfo sv_name sv_convert_extra c) = true.
Proof.
  cbn [convert_step run_closed]. apply endswith_after.
  unfold convert_flags. apply indent_trailing.
  rewrite <- !append_assoc. apply endswith_nl.
Qed.

Lemma stats_steps_closed (stats locally : bool) (c : BenchmarkComponent) :
  forallb run_closed (stats_steps binfo sv_name stats locally c) = true.
Proof.
  unfold stats_steps. destruct stats; [| reflexivity].
  destruct locally; cbn [forallb save_stats_step copy_stats_step
                          upload_stats_step run_closed];
    rewrite andb_true_r; rewrite <- !append_assoc; apply dedent_trailing_left.
Qed.

Lemma build_converted_step_closed (c : BenchmarkComponent) :
  run_closed (build_converted_step binfo V sv_name c) = true.
Proof.
  cbn [build_converted_step run_closed].
  rewrite <- !append_assoc. apply endswith_nl.
Qed.

Lemma check_deferred_step_closed :
  run_closed (check_deferred_step binfo sv_name) = true.
Proof.
  cbn [check_deferred_step run_closed].
  rewrite <- !append_assoc. apply endswith_nl.
Qed.

Lemma job_steps_closed_runs (stats locally : bool) :
  forallb run_closed (job_steps binfo V sv_name sv_convert_extra stats locally)
  = true.
Proof.
  rewrite job_steps_closed. cbn [forallb]. rewrite build_step_closed.
  cbn [andb]. rewrite forallb_app, forallb_flat_map.
  - destruct (defer_failure binfo); [| reflexivity].
    cbn [forallb andb]. now rewrite check_deferred_step_closed.
  - intros c. unfold component_steps.
    rewrite !forallb_app. cbn [forallb].
    now rewrite convert_step_closed, stats_steps_closed,
                build_converted_step_closed.
Qed.

Lemma join_nl_closed (xs : list string) :
  xs <> [] ->
  forallb (fun x => endswith_char x LF) xs = true ->
  endswith_char (join nl xs) LF = true.
Proof.
  unfold join. induction xs as [|a xs IH]; [contradiction |]. intros _.
  cbn [forallb]. intros H. apply andb_prop in H as [Ha Hxs].
  destruct xs as [|b xs]; [exact Ha |].
  cbn [String.concat]. apply endswith_after. apply endswith_after.
  apply IH; [discriminate | exact Hxs].
Qed.

End ClosedSteps.

(** X14. Every run step the step builder makes has commands that end in
    a line feed, whatever the benchmark, the names and the mode, also when
    the build commands are empty or a name holds a line feed. So every step
    entry of the CI form ends in a line feed, the blank line between two
    steps is the one the join adds, and the text of a CI job ends in a line
    feed. *)
Theorem steps_end_in_newline (binfo : BenchmarkInfo) (V : Variant)
  (sv_name sv_convert_extra : string) (stats locally : bool) (m : bool) :
  forallb run_closed (job_steps binfo V sv_name sv_convert_extra stats locally)
  = true
  /\ forallb (fun s => endswith_char (step_str s) LF)
             (job_steps binfo V sv_name sv_convert_extra stats locally) = true
  /\ (forall a b : Step, join nl [step_str a; step_str b]
                         = step_str a ++ nl ++ step_str b)
  /\ endswith_char (job_text binfo m V stats false) LF = true.
Proof.
  assert (H : forall n e loc,
            forallb (fun s => endswith_char (step_str s) LF)
                    (job_steps binfo V n e stats loc) = true).
  { intros n e loc. pose proof (job_steps_closed_runs binfo V n e stats loc) as Hr.
    induction (job_steps binfo V n e stats loc) as [|s l IH]; [reflexivity |].
    cbn [forallb] in *. apply andb_prop in Hr as [Hs Hl].
    now rewrite (step_str_closed s Hs), (IH Hl). }
  split; [apply job_steps_closed_runs |]. split; [apply H |].
  split; [reflexivity |].
  unfold job_text. apply endswith_after. apply join_nl_closed.
  - rewrite job_steps_closed. discriminate.
  - specialize (H (Spec.identifier V m) (Spec.tool_arguments V m) false).
    induction (job_steps binfo V (Spec.identifier V m) (Spec.tool_arguments V m)
                         stats false) as [|s l IH]; [reflexivity |].
    cbn [map forallb] in *. apply andb_prop in H as [Hs Hl].
    now rewrite Hs, (IH Hl).
Qed.
